(** * ClevrLive delivery core: a shallow embedding and its properties

    The Go sources embedded here are
    - [internal/core/message.go]        (Message, NewMessage)
    - [internal/core/recent_cache.go]   (RecentMessageCache)
    - [internal/core/subscriber.go]     (Subscriber, drop strategies)
    - [internal/core/topic.go]          (Topic, TopicManager)
    - [internal/buffer]                 (AddaptiveBufferManager)
    - [internal/throttle]               (AdaptiveThrottler)
    - [internal/handlers]               (the publish and subscribe adapters)

    Conventions.  A Go [int]/[int64] is a [Z]; where the source can leave the
    64-bit range the wrap-around is written out ([wrap64], [wrap32]).  A Go
    panic is [None].  A [float64] is Rocq's primitive binary64 float, so the
    comparisons and divisions below are the IEEE ones the Go code performs.
    Goroutines are not run: a function that spawns one returns normally and
    the spawned body is a function of its own that a schedule applies. *)

From Stdlib Require Import ZArith Lia Bool List.
From Stdlib Require Import Uint63 PrimFloat FloatOps.
From stdpp Require Import base option list gmap strings.

Local Open Scope Z_scope.

(** ** Machine integers *)

Definition wrap (w : Z) (x : Z) : Z := (x + 2 ^ (w - 1)) mod 2 ^ w - 2 ^ (w - 1).
Definition wrap64 : Z -> Z := wrap 64.
Definition wrap32 : Z -> Z := wrap 32.

Definition max_int64 : Z := 2 ^ 63 - 1.
Definition min_int64 : Z := - 2 ^ 63.

(** ** float64 *)

(** [float64(x)] for an [int64] [x]: the nearest binary64, ties to even.
    [of_uint63] converts (and rounds) a 63-bit natural; a negative [x] is the
    opposite of the conversion of [-x], and [-2^63] is a power of two. *)
Definition float_of_int64 (x : Z) : float :=
  if x =? min_int64 then PrimFloat.opp (PrimFloat.mul (PrimFloat.of_uint63 (Uint63.of_Z (2 ^ 62))) 2%float)
  else if x <? 0 then PrimFloat.opp (PrimFloat.of_uint63 (Uint63.of_Z (- x)))
  else PrimFloat.of_uint63 (Uint63.of_Z x).

(** [a > b] on floats. *)
Definition float_gt (a b : float) : bool := PrimFloat.ltb b a.

(** [uint64(f)] for a finite non-negative [f]: truncation.  (Go leaves the
    conversion of other values to the implementation; they give 0 here.) *)
Definition uint64_of_float (f : float) : Z :=
  match Prim2SF f with
  | SpecFloat.S754_finite false m e =>
      if 0 <=? e then Z.pos m * 2 ^ e else Z.pos m / 2 ^ (- e)
  | _ => 0
  end.

(** The decimal literals of the sources, as the binary64 the compiler picks. *)
Definition f0_1 : float := 0x1.999999999999ap-4%float.   (* 0.1 *)
Definition f0_5 : float := 0x1p-1%float.                 (* 0.5 *)
Definition f0_7 : float := 0x1.6666666666666p-1%float.   (* 0.7 *)
Definition f0_8 : float := 0x1.999999999999ap-1%float.   (* 0.80 *)
Definition f0_9 : float := 0x1.ccccccccccccdp-1%float.   (* 0.9 *)

(** ** time *)

(** A [time.Time] is its nanoseconds since the epoch, a [time.Duration] its
    nanoseconds.  [Time.Sub] saturates at the ends of [int64]. *)
Definition Millisecond : Z := 1000000.
Definition Second : Z := 1000000000.
Definition time_Sub (t u : Z) : Z := Z.max min_int64 (Z.min max_int64 (t - u)).
(** [t.Unix()]: whole seconds, rounded down. *)
Definition time_Unix (t : Z) : Z := t / Second.
(** [time.Unix(sec, 0)]. *)
Definition time_of_Unix (sec : Z) : Z := sec * Second.

(** ** Message (internal/core/message.go) *)

Module Msg.

Record Message := mkMessage {
  Id        : string;
  Topic     : string;
  TenantID  : string;
  Data      : string;   (* the JSON object, kept as its text *)
  Timestamp : Z
}.

(** The zero value of the struct, what [make([]Message, n)] is filled with. *)
Definition zeroMessage : Message := mkMessage "" "" "" "" 0.

(** [NewMessage]: the id and the timestamp come from the clock, which is an
    input here ([GenerateId] formats the time; its text is the [id] argument). *)
Definition NewMessage (id : string) (now : Z) (topic tenantID data : string) : Message :=
  mkMessage id topic tenantID data now.

End Msg.

Abbreviation Message := Msg.Message.
Abbreviation zeroMessage := Msg.zeroMessage.

(** ** RecentMessageCache (internal/core/recent_cache.go) *)

Module RecentCache.

Record RecentMessageCache := mkCache {
  messages : list Message;
  size     : Z;
  index    : Z;
  count    : Z
}.

(** [make([]Message, size)] panics on a negative length. *)
Definition NewRecentMessageCache (sz : Z) : option RecentMessageCache :=
  if sz <? 0 then None
  else Some (mkCache (replicate (Z.to_nat sz) zeroMessage) sz 0 0).

(** Slice indexing with Go's bounds check. *)
Definition at_index (l : list Message) (i : Z) : option Message :=
  if i <? 0 then None else l !! Z.to_nat i.

(** [Add]: [c.messages[c.index] = msg] panics out of range, [% c.size]
    panics on zero; Go's [%] truncates ([Z.rem]). *)
Definition Add (c : RecentMessageCache) (msg : Message) : option RecentMessageCache :=
  match at_index (messages c) (index c) with
  | None => None
  | Some _ =>
      if size c =? 0 then None
      else Some (mkCache (<[Z.to_nat (index c) := msg]> (messages c))
                         (size c)
                         (Z.rem (index c + 1) (size c))
                         (if count c <? size c then count c + 1 else count c))
  end.

(** The copy loop of [GetLast]: [for i := 0; i < n; i++]. [fuel] counts the
    iterations left, [i] is the loop variable. *)
Fixpoint copy_loop (c : RecentMessageCache) (startPost i : Z) (fuel : nat)
    (result : list Message) : option (list Message) :=
  match fuel with
  | O => Some result
  | S fuel' =>
      match at_index (messages c) (Z.rem (startPost + i) (size c)) with
      | None => None
      | Some m => copy_loop c startPost (i + 1) fuel' (<[Z.to_nat i := m]> result)
      end
  end.

Definition GetLast (c : RecentMessageCache) (n : Z) : option (list Message) :=
  let n := if n >? count c then count c else n in
  if n =? 0 then Some []
  else if n <? 0 then None                      (* make: len out of range *)
  else if size c =? 0 then None                 (* integer divide by zero *)
  else
    let result := replicate (Z.to_nat n) zeroMessage in
    let startPost := Z.rem (index c - n + size c) (size c) in
    copy_loop c startPost 0 (Z.to_nat n) result.

Definition GetAll (c : RecentMessageCache) : option (list Message) :=
  GetLast c (count c).

Definition Clear (c : RecentMessageCache) : RecentMessageCache :=
  mkCache (messages c) (size c) 0 0.

Definition GetCount (c : RecentMessageCache) : Z := count c.

(** A run of [Add]s, left to right. *)
Fixpoint add_all (c : RecentMessageCache) (ms : list Message) : option RecentMessageCache :=
  match ms with
  | [] => Some c
  | m :: ms' => match Add c m with
                | None => None
                | Some c' => add_all c' ms'
                end
  end.

(** The states a cache can be in: made by the constructor, then changed by
    [Add] and [Clear] only (the fields are private). *)
Inductive reachable : RecentMessageCache -> Prop :=
| reach_new sz c : NewRecentMessageCache sz = Some c -> reachable c
| reach_add c m c' : reachable c -> Add c m = Some c' -> reachable c'
| reach_clear c : reachable c -> reachable (Clear c).

(** Well-formedness, the representation invariant of the ring. *)
Definition wf (c : RecentMessageCache) : Prop :=
  Z.of_nat (length (messages c)) = size c /\
  0 <= count c <= size c /\
  0 <= index c /\ (index c < size c \/ (size c = 0 /\ index c = 0)).

End RecentCache.

(** ** Subscriber (internal/core/subscriber.go) *)

Module Sub.

(** [DropStrategy] is an [int]; the three constants, and any other value
    (the [default:] arm of the switch). *)
Inductive DropStrategy :=
| DROP_OLDEST
| DROP_NEWEST
| CIRCUIT_BREAKER
| OTHER_STRATEGY (v : Z).

(** The errors [SendMessages] returns; [None] of [option SendError] is [nil]. *)
Inductive SendError :=
| ErrBufferStillFull
| ErrDroppedNewMessage
| ErrCircuitBreaker
| ErrUnknownStrategy.

(** The subscriber.  [messageChan] is the content of the buffered channel,
    oldest first, and [capacity] its [cap].  [closed] is the state of
    [closeOnce]: once set the context is cancelled, [done] and [messageChan]
    are closed and so is the connection.  [written] is what [wsjson.Write]
    has put on the connection, oldest first.  The atomic counters are bumped
    by one per call and are kept as unbounded integers. *)
Record Subscriber := mkSubscriber {
  ID               : string;
  TenantID         : string;
  Topic            : string;
  messageChan      : list Message;
  capacity         : Z;
  dropStrategy     : DropStrategy;
  droppedCount     : Z;
  messagesRecieved : Z;
  messagesSent     : Z;
  lastActive       : Z;     (* nanoseconds *)
  closed           : bool;
  written          : list Message
}.

Definition NewSubscriber (id tenantID topic : string) (now : Z) (bufferSize : Z)
  : option Subscriber :=
  if bufferSize <? 0 then None          (* makechan: size out of range *)
  else Some (mkSubscriber id tenantID topic [] bufferSize DROP_OLDEST 0 0 0 now false []).

Definition set_chan (s : Subscriber) (q : list Message) : Subscriber :=
  mkSubscriber (ID s) (TenantID s) (Topic s) q (capacity s) (dropStrategy s)
    (droppedCount s) (messagesRecieved s) (messagesSent s) (lastActive s) (closed s) (written s).

Definition add_dropped (s : Subscriber) : Subscriber :=
  mkSubscriber (ID s) (TenantID s) (Topic s) (messageChan s) (capacity s) (dropStrategy s)
    (droppedCount s + 1) (messagesRecieved s) (messagesSent s) (lastActive s) (closed s) (written s).

Definition add_recieved (s : Subscriber) : Subscriber :=
  mkSubscriber (ID s) (TenantID s) (Topic s) (messageChan s) (capacity s) (dropStrategy s)
    (droppedCount s) (messagesRecieved s + 1) (messagesSent s) (lastActive s) (closed s) (written s).

(** The field is private and the constructor always picks [DROP_OLDEST];
    code of the package (a test, a later option) sets it directly. *)
Definition with_strategy (d : DropStrategy) (s : Subscriber) : Subscriber :=
  mkSubscriber (ID s) (TenantID s) (Topic s) (messageChan s) (capacity s) d
    (droppedCount s) (messagesRecieved s) (messagesSent s) (lastActive s) (closed s) (written s).

(** [Close]: the body runs once. *)
Definition Close (s : Subscriber) : Subscriber :=
  if closed s then s
  else mkSubscriber (ID s) (TenantID s) (Topic s) (messageChan s) (capacity s) (dropStrategy s)
         (droppedCount s) (messagesRecieved s) (messagesSent s) (lastActive s) true (written s).

(** The non-blocking send [select { case s.messageChan <- msg: ... default: }].
    [None]: panic (send on closed channel).  [Some None]: the default arm.
    An unbuffered inbox (capacity 0) hands a message over only to a receiver
    already parked in its receive, which a sequential run does not have. *)
Definition try_send (s : Subscriber) (msg : Message) : option (option Subscriber) :=
  if closed s then None
  else if Z.of_nat (length (messageChan s)) <? capacity s
       then Some (Some (set_chan s (messageChan s ++ [msg])))
       else Some None.

(** The non-blocking receive [select { case <-s.messageChan: ... default: }];
    a closed and drained channel yields the zero value at once. *)
Definition try_recv (s : Subscriber) : option (Message * Subscriber) :=
  match messageChan s with
  | m :: q => Some (m, set_chan s q)
  | [] => if closed s then Some (zeroMessage, s) else None
  end.

Definition handleBackPressure (s : Subscriber) (msg : Message)
  : option (Subscriber * option SendError) :=
  match dropStrategy s with
  | DROP_OLDEST =>
      let s1 := match try_recv s with
                | Some (_, s') => add_dropped s'
                | None => s
                end in
      match try_send s1 msg with
      | None => None
      | Some (Some s2) => Some (s2, None)
      | Some None => Some (add_dropped s1, Some ErrBufferStillFull)
      end
  | DROP_NEWEST => Some (add_dropped s, Some ErrDroppedNewMessage)
  | CIRCUIT_BREAKER =>
      let dropped := droppedCount s in
      if dropped >? 100 then Some (Close s, Some ErrCircuitBreaker)
      else Some (s, None)
  | OTHER_STRATEGY _ => Some (add_dropped s, Some ErrUnknownStrategy)
  end.

Definition SendMessages (s : Subscriber) (msg : Message)
  : option (Subscriber * option SendError) :=
  let s := add_recieved s in
  match try_send s msg with
  | None => None
  | Some (Some s') => Some (s', None)
  | Some None => handleBackPressure s msg
  end.

(** One turn of the [select] in [sendLoop].  The environment picks the arm
    and says whether the transport accepts the write or the ping; a write on
    a closed subscriber fails whatever the transport says (cancelled context,
    closed connection). *)
Inductive LoopEvent :=
| RecvMsg (write_ok : bool) (now : Z)
| Tick (ping_ok : bool)
| DoneClosed
| CtxDone.

(** [None]: the arm is not ready.  The boolean of the result tells whether the
    loop goes on. *)
Definition sendLoop_step (ev : LoopEvent) (s : Subscriber) : option (Subscriber * bool) :=
  match ev with
  | RecvMsg write_ok now =>
      match messageChan s with
      | msg :: q =>
          let s1 := set_chan s q in
          if write_ok && negb (closed s1)
          then Some (mkSubscriber (ID s1) (TenantID s1) (Topic s1) (messageChan s1)
                       (capacity s1) (dropStrategy s1) (droppedCount s1)
                       (messagesRecieved s1) (messagesSent s1 + 1) now (closed s1)
                       (written s1 ++ [msg]), true)
          else Some (Close s1, false)
      | [] => if closed s then Some (s, false) else None
      end
  | Tick ping_ok =>
      if ping_ok && negb (closed s) then Some (s, true) else Some (Close s, false)
  | DoneClosed => if closed s then Some (s, false) else None
  | CtxDone => Some (s, false)
  end.

Definition GetMetrics (s : Subscriber) : list (string * Z) :=
  [("Messages Recieved"%string, messagesRecieved s);
   ("Messages Sent"%string, messagesSent s);
   ("Messages Dropped"%string, droppedCount s)].

(** [IsHealthy]; [now] is the clock read by [time.Since]. *)
Definition IsHealthy (now : Z) (s : Subscriber) : bool :=
  if time_Sub now (lastActive s) >? 60 * Second then false
  else
    let messagesRecieved := messagesRecieved s in
    let droppedCount := droppedCount s in
    if messagesRecieved >? 0 then
      let dropRate := PrimFloat.div (float_of_int64 droppedCount) (float_of_int64 messagesRecieved) in
      if float_gt dropRate f0_1 then false else true
    else true.

Definition IsSlow (s : Subscriber) : bool := droppedCount s >? 0.

(** A run of [SendMessages] calls, with what each returned. *)
Fixpoint send_all (s : Subscriber) (msgs : list Message)
  : option (Subscriber * list (option SendError)) :=
  match msgs with
  | [] => Some (s, [])
  | m :: rest =>
      match SendMessages s m with
      | None => None
      | Some (s1, e) =>
          match send_all s1 rest with
          | None => None
          | Some (s2, es) => Some (s2, e :: es)
          end
      end
  end.

(** What happens to one subscriber: a [SendMessages] call (from a publish or
    the catch-up), a turn of its delivery loop, a [Close] from outside
    (unsubscribe, shutdown). *)
Inductive Event :=
| EvSend (msg : Message)
| EvLoop (ev : LoopEvent)
| EvClose.

(** The subscriber and whether its delivery loop is running.  [None]: the
    event cannot happen there (the loop has returned, the arm is not ready)
    or the call panics. *)
Definition step (e : Event) (st : Subscriber * bool) : option (Subscriber * bool) :=
  let '(s, running) := st in
  match e with
  | EvSend msg =>
      match SendMessages s msg with
      | None => None
      | Some (s', _) => Some (s', running)
      end
  | EvLoop ev => if running then sendLoop_step ev s else None
  | EvClose => Some (Close s, running)
  end.

Fixpoint run (evs : list Event) (st : Subscriber * bool) : option (Subscriber * bool) :=
  match evs with
  | [] => Some st
  | e :: rest =>
      match step e st with
      | None => None
      | Some st' => run rest st'
      end
  end.

(** The counter equation of the drop accounting. *)
Definition accounted (s : Subscriber) : Prop :=
  messagesRecieved s = messagesSent s + droppedCount s + Z.of_nat (length (messageChan s)).

(** The event takes a message out of the inbox and the write of it fails. *)
Definition write_fails (e : Event) (s : Subscriber) : bool :=
  match e with
  | EvLoop (RecvMsg write_ok _) =>
      match messageChan s with
      | _ :: _ => negb (write_ok && negb (closed s))
      | [] => false
      end
  | _ => false
  end.

(** No write fails along the run. *)
Fixpoint writes_succeed (evs : list Event) (st : Subscriber * bool) : bool :=
  match evs with
  | [] => true
  | e :: rest =>
      negb (write_fails e (fst st)) &&
      match step e st with
      | None => true
      | Some st' => writes_succeed rest st'
      end
  end.

(** Every message the subscriber holds in its inbox or has written to its
    connection carries the subscriber's tenant. *)
Definition own_tenant_only (s : Subscriber) : Prop :=
  Forall (fun m => Msg.TenantID m = TenantID s) (messageChan s) /\
  Forall (fun m => Msg.TenantID m = TenantID s) (written s).

(** [is_healthy] as the specification words it: [last_active] within 60 s
    and [dropped/received < 0.1], the ratio being the float64 quotient. *)
Definition spec_is_healthy (now : Z) (s : Subscriber) : bool :=
  (time_Sub now (lastActive s) <=? 60 * Second) &&
  PrimFloat.ltb (PrimFloat.div (float_of_int64 (droppedCount s))
                               (float_of_int64 (messagesRecieved s))) f0_1.

End Sub.

(** ** AddaptiveBufferManager (internal/buffer) *)

Module Buffer.

Definition MinBifferSize : Z := 100.
Definition MaxBufferSize : Z := 1000.
Definition ReCalcTime    : Z := 5 * Second.
Definition AvgMessSize   : Z := 1024.

(** [maxTotalMemory] is an [int64], the two atomics are [int32]. *)
Record AddaptiveBufferManager := mkManager {
  maxTotalMemory : Z;
  suncriberCount : Z;
  bufferSize     : Z;
  stopped        : bool
}.

Definition NewAdaptiveBufferManager (maxMemort : Z) : AddaptiveBufferManager :=
  mkManager maxMemort 0 MaxBufferSize false.

(** [recalculate]; [alloc] is [m.Alloc] as read by [runtime.ReadMemStats]
    (a [uint64]).  Go's [/] truncates ([Z.quot]); the conversions to [int64]
    and [int32] wrap. *)
Definition recalculate (adm : AddaptiveBufferManager) (alloc : Z) : AddaptiveBufferManager :=
  let subCount := suncriberCount adm in
  if subCount =? 0 then adm
  else
    let currentMomory := wrap64 alloc in
    let availableMemory := wrap64 (maxTotalMemory adm - currentMomory) in
    let availableMemory := if availableMemory <? 0 then 0 else availableMemory in
    let memoryPerSub := wrap64 (Z.quot availableMemory subCount) in
    let bufferPerSub := wrap32 (Z.quot memoryPerSub AvgMessSize) in
    let bufferPerSub := if bufferPerSub <? MinBifferSize then MinBifferSize else bufferPerSub in
    let bufferPerSub := if bufferPerSub >? MaxBufferSize then MaxBufferSize else bufferPerSub in
    mkManager (maxTotalMemory adm) (suncriberCount adm) bufferPerSub (stopped adm).

Definition GetBufferSize (adm : AddaptiveBufferManager) : Z := bufferSize adm.

Definition AddNewSubscriber (adm : AddaptiveBufferManager) : AddaptiveBufferManager :=
  mkManager (maxTotalMemory adm) (wrap32 (suncriberCount adm + 1)) (bufferSize adm) (stopped adm).

Definition OnSubscriberRemoval (adm : AddaptiveBufferManager) : AddaptiveBufferManager :=
  mkManager (maxTotalMemory adm) (wrap32 (suncriberCount adm - 1)) (bufferSize adm) (stopped adm).

(** The recalculation as the specification words it:
    [clamp((max(0, max_total_memory - alloc) / max(1, subscriber_count)) / 1024, 100, 1000)]. *)
Definition clamp (x lo hi : Z) : Z := Z.max lo (Z.min hi x).
Definition spec_buffer_size (max_total_memory subscriber_count alloc : Z) : Z :=
  clamp ((Z.max 0 (max_total_memory - alloc) / Z.max 1 subscriber_count) / 1024) 100 1000.

End Buffer.

(** ** AdaptiveThrottler (internal/throttle) *)

Module Throttle.

Record Config := mkConfig {
  CPUThreshold       : float;
  MemoryThreshold    : float;
  SlowSubThreshold   : float;
  ThrottleDuration   : Z;
  CheckInterval      : Z;
  MinPublishInterval : Z
}.

Definition DefaultConfig : Config :=
  mkConfig f0_8 f0_8 f0_5 (5 * Second) (1 * Second) (10 * Millisecond).

(** [lastCheckTime] holds Unix seconds.  [timers] are the goroutines started
    by [StartThrottling] that still sleep: each is the time before which it
    cannot wake up (the time of its arm plus [ThrottleDuration]). *)
Record AdaptiveThrottler := mkThrottler {
  config          : Config;
  isThrottling    : bool;
  lastCheckTime   : Z;
  slowSubCount    : Z;
  totalSubCount   : Z;
  lastCPUUsage    : Z;
  lastMemoryUsage : Z;
  timers          : list Z
}.

Definition NewAdaptiveThrottler (cfg : Config) (now : Z) : AdaptiveThrottler :=
  mkThrottler cfg false (time_Unix now) 0 0 0 0 [].

Definition StopThrottling (at_ : AdaptiveThrottler) : AdaptiveThrottler :=
  mkThrottler (config at_) false (lastCheckTime at_) (slowSubCount at_) (totalSubCount at_)
    (lastCPUUsage at_) (lastMemoryUsage at_) (timers at_).

(** [StartThrottling] at time [now]: the flag is set and a goroutine is
    started that sleeps [ThrottleDuration] and then calls [StopThrottling]. *)
Definition StartThrottling (at_ : AdaptiveThrottler) (now : Z) : AdaptiveThrottler :=
  mkThrottler (config at_) true (lastCheckTime at_) (slowSubCount at_) (totalSubCount at_)
    (lastCPUUsage at_) (lastMemoryUsage at_)
    (timers at_ ++ [now + ThrottleDuration (config at_)]).

Definition UpdateSubscriber (at_ : AdaptiveThrottler) (slowCount totalCOunt : Z) : AdaptiveThrottler :=
  mkThrottler (config at_) (isThrottling at_) (lastCheckTime at_)
    (wrap32 slowCount) (wrap32 totalCOunt)
    (lastCPUUsage at_) (lastMemoryUsage at_) (timers at_).

(** [getCPUUsage]; [numGoroutines] is [runtime.NumGoroutine()]. *)
Definition cpu_usage (numGoroutines : Z) : float :=
  if numGoroutines >? 10000 then f0_9
  else if numGoroutines >? 5000 then f0_7
  else if numGoroutines >? 1000 then f0_5
  else PrimFloat.div (float_of_int64 numGoroutines) 1000%float.

Definition getCPUUsage (at_ : AdaptiveThrottler) (numGoroutines : Z) : AdaptiveThrottler * float :=
  let usage := cpu_usage numGoroutines in
  (mkThrottler (config at_) (isThrottling at_) (lastCheckTime at_) (slowSubCount at_)
     (totalSubCount at_) (uint64_of_float (PrimFloat.mul usage 1000000%float))
     (lastMemoryUsage at_) (timers at_), usage).

(** [getMemoryUsage]; [alloc] is [m.Alloc], below [2^63]. *)
Definition memory_usage (alloc : Z) : float :=
  let maxMemory := 2 * 1024 * 1024 * 1024 in
  let usage := PrimFloat.div (float_of_int64 alloc) (float_of_int64 maxMemory) in
  if float_gt usage 1%float then 1%float else usage.

Definition getMemoryUsage (at_ : AdaptiveThrottler) (alloc : Z) : AdaptiveThrottler * float :=
  let usage := memory_usage alloc in
  (mkThrottler (config at_) (isThrottling at_) (lastCheckTime at_) (slowSubCount at_)
     (totalSubCount at_) (lastCPUUsage at_)
     (uint64_of_float (PrimFloat.mul usage 1000000%float)) (timers at_), usage).

Definition set_lastCheckTime (at_ : AdaptiveThrottler) (sec : Z) : AdaptiveThrottler :=
  mkThrottler (config at_) (isThrottling at_) sec (slowSubCount at_) (totalSubCount at_)
    (lastCPUUsage at_) (lastMemoryUsage at_) (timers at_).

(** [ShouldThrottle]: the clock, the goroutine count and the heap size are
    what the call reads from the runtime. *)
Definition ShouldThrottle (at_ : AdaptiveThrottler) (now numGoroutines alloc : Z)
  : AdaptiveThrottler * bool :=
  if isThrottling at_ then (at_, true)
  else
    let lastCheck := time_of_Unix (lastCheckTime at_) in
    if time_Sub now lastCheck <? CheckInterval (config at_) then (at_, isThrottling at_)
    else
      let at1 := set_lastCheckTime at_ (time_Unix now) in
      let '(at2, cpuUsage) := getCPUUsage at1 numGoroutines in
      let '(at3, memoryUsage) := getMemoryUsage at2 alloc in
      let slowSubs := float_of_int64 (slowSubCount at3) in
      let totalSubs := float_of_int64 (totalSubCount at3) in
      if PrimFloat.eqb totalSubs 0%float then (at3, false)
      else
        let slowSubPercentage := PrimFloat.div slowSubs totalSubs in
        let shouldThrottle :=
          float_gt slowSubPercentage (SlowSubThreshold (config at3)) &&
          (float_gt cpuUsage (CPUThreshold (config at3)) ||
           float_gt memoryUsage (MemoryThreshold (config at3))) in
        if shouldThrottle then (StartThrottling at3 now, true) else (at3, false).

(** The throttler after the sampling of [ShouldThrottle]: the check time and
    the two observed signals are stored. *)
Definition sampled (at_ : AdaptiveThrottler) (now numGoroutines alloc : Z) : AdaptiveThrottler :=
  mkThrottler (config at_) (isThrottling at_) (time_Unix now)
    (slowSubCount at_) (totalSubCount at_)
    (uint64_of_float (PrimFloat.mul (cpu_usage numGoroutines) 1000000%float))
    (uint64_of_float (PrimFloat.mul (memory_usage alloc) 1000000%float))
    (timers at_).

Definition IsThrottling (at_ : AdaptiveThrottler) : bool := isThrottling at_.

(** [ApplyThrottle]: the time the caller is held. *)
Definition ApplyThrottle (at_ : AdaptiveThrottler) : Z :=
  if isThrottling at_ then MinPublishInterval (config at_) else 0.

(** The events of the throttle flag on a time line: a call of
    [StartThrottling], and the wake-up of the [i]-th sleeping goroutine,
    which calls [StopThrottling]. *)
Inductive TimedEvent :=
| Arm
| Fire (i : nat).

(** One event at time [t].  [None]: the goroutine cannot have woken up yet
    (or there is none). *)
Definition timed_step (at_ : AdaptiveThrottler) (t : Z) (ev : TimedEvent)
  : option AdaptiveThrottler :=
  match ev with
  | Arm => Some (StartThrottling at_ t)
  | Fire i =>
      match timers at_ !! i with
      | Some wake =>
          if wake <=? t
          then Some (StopThrottling
                 (mkThrottler (config at_) (isThrottling at_) (lastCheckTime at_)
                    (slowSubCount at_) (totalSubCount at_) (lastCPUUsage at_)
                    (lastMemoryUsage at_) (delete i (timers at_))))
          else None
      | None => None
      end
  end.

(** A schedule: events with their times, which never go back from [t0]. *)
Fixpoint timed_run (at_ : AdaptiveThrottler) (t0 : Z) (evs : list (Z * TimedEvent))
  : option AdaptiveThrottler :=
  match evs with
  | [] => Some at_
  | (t, ev) :: rest =>
      if t <? t0 then None
      else match timed_step at_ t ev with
           | None => None
           | Some at' => timed_run at' t rest
           end
  end.

End Throttle.

(** ** The store of subscribers *)

(** Topics hold [*Subscriber] pointers.  [Heap] is the store the pointers
    point into; an address is a natural number. *)
Abbreviation addr := nat (only parsing).
Abbreviation Heap := (gmap nat Sub.Subscriber) (only parsing).

(** ** Topic (internal/core/topic.go) *)

Module Topic.

Record Topic := mkTopic {
  name              : string;
  tenantID          : string;
  subscribers       : gmap string nat;
  recentCache       : RecentCache.RecentMessageCache;
  messagesPublished : Z;
  totalSubscribers  : Z;
  createdAt         : Z
}.

Inductive TopicError :=
| ErrTenantMismatch
| ErrSubscriberNotFound.

Definition NewTopic (name tenantID : string) (cahcheSize : Z) (now : Z) : option Topic :=
  match RecentCache.NewRecentMessageCache cahcheSize with
  | None => None
  | Some c => Some (mkTopic name tenantID ∅ c 0 0 now)
  end.

(** The order of a Go map iteration is not fixed; the snapshot is taken in
    the order of the finite map. *)
Definition getSubscribersSnapshot (t : Topic) : list nat :=
  (map_to_list (subscribers t)).*2.

(** The fan-out of [Publish]: one goroutine per subscriber of the snapshot,
    each calling [SendMessages]; they are run one after the other.  An error
    is printed and dropped; a panic ends the process. *)
Fixpoint fan_out (snapshot : list nat) (msg : Message) (h : Heap) : option Heap :=
  match snapshot with
  | [] => Some h
  | p :: rest =>
      match h !! p with
      | None => None
      | Some sub =>
          match Sub.SendMessages sub msg with
          | None => None
          | Some (sub', _) => fan_out rest msg (<[p := sub']> h)
          end
      end
  end.

(** [Publish] always returns [nil]; the result is the topic and the store.
    (The early return on an empty snapshot is the empty fan-out.) *)
Definition Publish (t : Topic) (h : Heap) (msg : Message) : option (Topic * Heap) :=
  match RecentCache.Add (recentCache t) msg with
  | None => None
  | Some c =>
      let t' := mkTopic (name t) (tenantID t) (subscribers t) c
                  (messagesPublished t + 1) (totalSubscribers t) (createdAt t) in
      match fan_out (getSubscribersSnapshot t') msg h with
      | None => None
      | Some h' => Some (t', h')
      end
  end.

(** The loop of [sendRecentMessages]: it returns at the first error. *)
Fixpoint send_recent_loop (recent : list Message) (sub : Sub.Subscriber)
  : option Sub.Subscriber :=
  match recent with
  | [] => Some sub
  | msg :: rest =>
      match Sub.SendMessages sub msg with
      | None => None
      | Some (sub', Some _) => Some sub'
      | Some (sub', None) => send_recent_loop rest sub'
      end
  end.

Definition sendRecentMessages (t : Topic) (sub : Sub.Subscriber) : option Sub.Subscriber :=
  match RecentCache.GetLast (recentCache t) 50 with
  | None => None
  | Some recent => send_recent_loop recent sub
  end.

(** What [Subscribe] starts with [go]: the catch-up and the delivery loop of
    the subscriber at the address. *)
Inductive Spawned :=
| GoSendRecentMessages (p : nat)
| GoSendLoop (p : nat).

(** [Subscribe] of the subscriber [sub] stored at [p]. *)
Definition Subscribe (t : Topic) (p : nat) (sub : Sub.Subscriber)
  : Topic * option TopicError * list Spawned :=
  if bool_decide (tenantID t ≠ Sub.TenantID sub)
  then (t, Some ErrTenantMismatch, [])
  else (mkTopic (name t) (tenantID t) (<[Sub.ID sub := p]> (subscribers t)) (recentCache t)
          (messagesPublished t) (totalSubscribers t + 1) (createdAt t),
        None, [GoSendRecentMessages p; GoSendLoop p]).

Definition Unsubscribe (t : Topic) (h : Heap) (subscriberID : string)
  : Topic * Heap * option TopicError :=
  match subscribers t !! subscriberID with
  | None => (t, h, Some ErrSubscriberNotFound)
  | Some p =>
      (mkTopic (name t) (tenantID t) (delete subscriberID (subscribers t)) (recentCache t)
         (messagesPublished t) (totalSubscribers t) (createdAt t),
       match h !! p with
       | Some sub => <[p := Sub.Close sub]> h
       | None => h
       end,
       None)
  end.

Definition GetSubscriberCount (t : Topic) : Z := Z.of_nat (size (subscribers t)).

End Topic.

(** ** TopicManager (internal/core/topic_manager.go) *)

Module TopicManager.

(** The buffer manager is shared by pointer; its state is kept here, where
    it is changed.  The throttler is only fed by the monitor loop. *)
Record TopicManager := mkTM {
  bufferManager : Buffer.AddaptiveBufferManager;
  topics        : gmap string Topic.Topic
}.

Inductive ManagerError :=
| ErrManagerTenantMismatch
| ErrTopicNotFound
| ErrTopic (e : Topic.TopicError).

Definition NewTopicManager (buffer : Buffer.AddaptiveBufferManager) : TopicManager :=
  mkTM buffer ∅.

Definition makeTopicKey (tenantID topicName : string) : string :=
  tenantID +:+ ":" +:+ topicName.

(** [getOrCreateTopic] returns the topic (and the manager that holds it). *)
Definition getOrCreateTopic (tm : TopicManager) (tenant_id topic_name : string) (now : Z)
  : option (TopicManager * Topic.Topic) :=
  let topicKey := makeTopicKey tenant_id topic_name in
  match topics tm !! topicKey with
  | Some topic => Some (tm, topic)
  | None =>
      match Topic.NewTopic topic_name tenant_id 100 now with
      | None => None
      | Some topic => Some (mkTM (bufferManager tm) (<[topicKey := topic]> (topics tm)), topic)
      end
  end.

(** [Publish]; the topic is a pointer, so what [topic.Publish] changes is
    written back under its key. *)
Definition Publish (tm : TopicManager) (h : Heap) (tenant_id topic_name : string)
    (msg : Message) (now : Z) : option (TopicManager * Heap) :=
  match getOrCreateTopic tm tenant_id topic_name now with
  | None => None
  | Some (tm1, topic) =>
      match Topic.Publish topic h msg with
      | None => None
      | Some (topic', h') =>
          Some (mkTM (bufferManager tm1)
                  (<[makeTopicKey tenant_id topic_name := topic']> (topics tm1)), h')
      end
  end.

(** [Subscribe] of the subscriber at [p]. *)
Definition Subscribe (tm : TopicManager) (h : Heap) (tenant_id topic_name subscriberID : string)
    (p : nat) (now : Z)
  : option (TopicManager * option ManagerError * list Topic.Spawned) :=
  match h !! p with
  | None => None
  | Some sub =>
      if bool_decide (Sub.TenantID sub ≠ tenant_id)
      then Some (tm, Some ErrManagerTenantMismatch, [])
      else
        match getOrCreateTopic tm tenant_id topic_name now with
        | None => None
        | Some (tm1, topic) =>
            let bm := Buffer.AddNewSubscriber (bufferManager tm1) in
            let '(topic', err, spawned) := Topic.Subscribe topic p sub in
            Some (mkTM bm (<[makeTopicKey tenant_id topic_name := topic']> (topics tm1)),
                  ErrTopic <$> err, spawned)
        end
  end.

Definition Unsubscribe (tm : TopicManager) (h : Heap) (tenant_id topic_name subscriberID : string)
  : TopicManager * Heap * option ManagerError :=
  let topicKey := makeTopicKey tenant_id topic_name in
  match topics tm !! topicKey with
  | None => (tm, h, Some ErrTopicNotFound)
  | Some topic =>
      match Topic.Unsubscribe topic h subscriberID with
      | (topic', h', Some e) => (mkTM (bufferManager tm) (<[topicKey := topic']> (topics tm)), h', Some (ErrTopic e))
      | (topic', h', None) =>
          (mkTM (Buffer.OnSubscriberRemoval (bufferManager tm))
             (<[topicKey := topic']> (topics tm)), h', None)
      end
  end.

End TopicManager.

(** ** The boundary adapters (internal/handlers) *)

Module Handlers.

Inductive PublishResponse :=
| RespondError (message : string) (statusCode : Z)
| RespondSuccess (messageID : string).

(** [r.Context().Value("tenantId").(string)], with the default. *)
Definition resolve_tenant (ctxTenant : option string) : string :=
  match ctxTenant with
  | Some t => if bool_decide (t = ""%string) then "default-tenant"%string else t
  | None => "default-tenant"%string
  end.

(** [PublishHandler.ServeHTTP].  [body] is the decoded request ([None]: the
    JSON does not decode), its [data] is [None] for a missing object.  The
    call of the throttler between the checks and [NewMessage] only delays the
    request.  [id] and [now] are what [NewMessage] reads from the clock. *)
Definition Publish_ServeHTTP (tm : TopicManager.TopicManager) (h : Heap)
    (isPost : bool) (ctxTenant : option string) (body : option (string * option string))
    (id : string) (now : Z)
  : option (TopicManager.TopicManager * Heap * PublishResponse) :=
  if negb isPost then Some (tm, h, RespondError "Method Not Allowed" 405)
  else
    let tenant_id := resolve_tenant ctxTenant in
    match body with
    | None => Some (tm, h, RespondError "Invalid request Body" 400)
    | Some (topic, data) =>
        if bool_decide (topic = ""%string) then Some (tm, h, RespondError "Topic Needed" 400)
        else match data with
             | None => Some (tm, h, RespondError "DAta Needed" 400)
             | Some d =>
                 let msg := Msg.NewMessage id now topic tenant_id d in
                 match TopicManager.Publish tm h tenant_id topic msg now with
                 | None => None
                 | Some (tm', h') => Some (tm', h', RespondSuccess (Msg.Id msg))
                 end
             end
    end.

(** What [SubscriberHandler.ServeHTTP] did with the request: an [http.Error]
    answer; the upgraded connection closed with [StatusInternalError] after a
    failed [Subscribe]; or the handler blocked on the subscriber's context,
    the subscription standing. *)
Inductive SubscribeResponse :=
| SubscribeError (message : string) (statusCode : Z)
| SubscribeClosed
| SubscribeServing.

(** [SubscriberHandler.ServeHTTP] up to the point where it blocks on the
    subscriber's context.  [accepted] tells whether [websocket.Accept]
    returned a connection ([false]: it returned an error).  The new
    subscriber is stored at the fresh address [p]. *)
Definition Subscribe_ServeHTTP (tm : TopicManager.TopicManager) (h : Heap)
    (ctxTenant : option string) (topic : string) (accepted : bool)
    (subscriberID : string) (p : nat) (now : Z)
  : option (TopicManager.TopicManager * Heap * list Topic.Spawned * SubscribeResponse) :=
  let tenant_id := resolve_tenant ctxTenant in
  if bool_decide (topic = ""%string)
  then Some (tm, h, [], SubscribeError "Topic parameter is required" 400)
  else if negb accepted
  then Some (tm, h, [], SubscribeError "Failed to upgrade connection" 500)
  else
    let bufferSize := Buffer.GetBufferSize (TopicManager.bufferManager tm) in
    match Sub.NewSubscriber subscriberID tenant_id topic now bufferSize with
    | None => None
    | Some subscriber =>
        let h1 := <[p := subscriber]> h in
        match TopicManager.Subscribe tm h1 tenant_id topic subscriberID p now with
        | None => None
        | Some (tm', Some _, spawned) => Some (tm', h1, spawned, SubscribeClosed)
        | Some (tm', None, spawned) => Some (tm', h1, spawned, SubscribeServing)
        end
    end.

End Handlers.

(** ** A run of publishes *)

Module Scenario.

(** [TopicManager.Publish] of each message in turn, to one topic of one
    tenant. *)
Fixpoint publish_all (tm : TopicManager.TopicManager) (h : Heap)
    (tenant_id topic_name : string) (msgs : list Message) (now : Z)
  : option (TopicManager.TopicManager * Heap) :=
  match msgs with
  | [] => Some (tm, h)
  | msg :: rest =>
      match TopicManager.Publish tm h tenant_id topic_name msg now with
      | None => None
      | Some (tm', h') => publish_all tm' h' tenant_id topic_name rest now
      end
  end.

End Scenario.

(** ** The life of a buffer manager *)

Module BufferRun.

(** What happens to a buffer manager after [NewAdaptiveBufferManager]: a
    tick of its monitor loop (with the heap usage it reads), a subscriber
    added, a subscriber removed. *)
Inductive BufferOp :=
| OpRecalculate (alloc : Z)
| OpAddNewSubscriber
| OpOnSubscriberRemoval.

Definition apply_op (adm : Buffer.AddaptiveBufferManager) (op : BufferOp)
  : Buffer.AddaptiveBufferManager :=
  match op with
  | OpRecalculate alloc => Buffer.recalculate adm alloc
  | OpAddNewSubscriber => Buffer.AddNewSubscriber adm
  | OpOnSubscriberRemoval => Buffer.OnSubscriberRemoval adm
  end.

Definition apply_ops (adm : Buffer.AddaptiveBufferManager) (ops : list BufferOp)
  : Buffer.AddaptiveBufferManager :=
  foldl apply_op adm ops.

End BufferRun.

(** ** What the events of a subscriber preserve *)

Module SubInv.
Import Sub.

(** What one event can do to a subscriber. *)
Definition keeps (s s' : Subscriber) : Prop :=
  capacity s' = capacity s /\
  droppedCount s <= droppedCount s' /\
  messagesSent s <= messagesSent s' /\
  messagesRecieved s <= messagesRecieved s' /\
  (closed s = true ->
     closed s' = true /\ written s' = written s /\ messagesSent s' = messagesSent s) /\
  (Z.of_nat (length (messageChan s)) <= capacity s ->
     Z.of_nat (length (messageChan s')) <= capacity s').

End SubInv.

(** ** Observers and shutdown (internal/core/topic.go) *)

Module TopicObs.

(** The loop of [Topic.GetSlowSubscriberCount] over the subscribers of the
    map, [count] being its counter. *)
Fixpoint count_slow (ptrs : list nat) (h : Heap) (count : Z) : option Z :=
  match ptrs with
  | [] => Some count
  | p :: rest =>
      match h !! p with
      | None => None
      | Some sub => count_slow rest h (if Sub.IsSlow sub then count + 1 else count)
      end
  end.

Definition GetSlowSubscriberCount (t : Topic.Topic) (h : Heap) : option Z :=
  count_slow (Topic.getSubscribersSnapshot t) h 0.

Definition GetTenantID (t : Topic.Topic) : string := Topic.tenantID t.
Definition GetName (t : Topic.Topic) : string := Topic.name t.

End TopicObs.

Module ManagerOps.

(** [GetTopic]: the topic under the key, or the not-found error. *)
Definition GetTopic (tm : TopicManager.TopicManager) (tenant_id topic_name : string)
  : Topic.Topic + TopicManager.ManagerError :=
  match TopicManager.topics tm !! TopicManager.makeTopicKey tenant_id topic_name with
  | Some topic => inl topic
  | None => inr TopicManager.ErrTopicNotFound
  end.

Definition GetAllTopics (tm : TopicManager.TopicManager) : list Topic.Topic :=
  (map_to_list (TopicManager.topics tm)).*2.

Definition GetTopicCount (tm : TopicManager.TopicManager) : Z :=
  Z.of_nat (size (TopicManager.topics tm)).

(** [total += topic.GetSubscriberCount()] over the topics. *)
Fixpoint sum_subscribers (ts : list Topic.Topic) (total : Z) : Z :=
  match ts with
  | [] => total
  | topic :: rest => sum_subscribers rest (total + Topic.GetSubscriberCount topic)
  end.

Definition GetTotalSubscriberCount (tm : TopicManager.TopicManager) : Z :=
  sum_subscribers (GetAllTopics tm) 0.

(** [total += topic.GetSlowSubscriberCount()] over the topics. *)
Fixpoint sum_slow (ts : list Topic.Topic) (h : Heap) (total : Z) : option Z :=
  match ts with
  | [] => Some total
  | topic :: rest =>
      match TopicObs.GetSlowSubscriberCount topic h with
      | None => None
      | Some n => sum_slow rest h (total + n)
      end
  end.

Definition GetSlowSubscriberCount (tm : TopicManager.TopicManager) (h : Heap) : option Z :=
  sum_slow (GetAllTopics tm) h 0.

(** One tick of [monitoLoop]: the two counts are pushed into the throttler. *)
Definition monitor_tick (tm : TopicManager.TopicManager) (h : Heap)
    (throttler : Throttle.AdaptiveThrottler) : option Throttle.AdaptiveThrottler :=
  let TotalSubCount := GetTotalSubscriberCount tm in
  match GetSlowSubscriberCount tm h with
  | None => None
  | Some SlowSubCount => Some (Throttle.UpdateSubscriber throttler SlowSubCount TotalSubCount)
  end.

(** [subs.Close()] for every subscriber of a snapshot. *)
Fixpoint close_each (ptrs : list nat) (h : Heap) : option Heap :=
  match ptrs with
  | [] => Some h
  | p :: rest =>
      match h !! p with
      | None => None
      | Some sub => close_each rest (<[p := Sub.Close sub]> h)
      end
  end.

Fixpoint close_topics (ts : list Topic.Topic) (h : Heap) : option Heap :=
  match ts with
  | [] => Some h
  | topic :: rest =>
      match close_each (Topic.getSubscribersSnapshot topic) h with
      | None => None
      | Some h' => close_topics rest h'
      end
  end.

(** [ShutDown]: [shutDownOnce] says whether the body has run already.  The
    topics keep their subscribers. *)
Definition ShutDown (shutDownOnce : bool) (tm : TopicManager.TopicManager) (h : Heap)
  : option (bool * Heap) :=
  if shutDownOnce then Some (true, h)
  else match close_topics (GetAllTopics tm) h with
       | None => None
       | Some h' => Some (true, h')
       end.

End ManagerOps.

(** * Properties *)

(** ** RecentMessageCache *)

Module RecentCacheFacts.
Import RecentCache.

Lemma at_index_Some (l : list Message) (i : Z) :
  0 <= i < Z.of_nat (length l) -> exists m, at_index l i = Some m /\ l !! Z.to_nat i = Some m.
Proof.
  intros Hi. unfold at_index.
  destruct (i <? 0) eqn:E; [lia|].
  destruct (lookup_lt_is_Some_2 l (Z.to_nat i)) as [m Hm]; [lia|].
  exists m. by rewrite Hm.
Qed.

Lemma wf_new sz c : NewRecentMessageCache sz = Some c -> wf c.
Proof.
  unfold NewRecentMessageCache, wf. destruct (sz <? 0) eqn:E; [done|].
  intros [= <-]. cbn. rewrite length_replicate. lia.
Qed.

Lemma wf_add c m c' : wf c -> Add c m = Some c' -> wf c'.
Proof.
  unfold Add, wf, at_index. intros (Hl & Hc & Hi0 & Hi).
  destruct (index c <? 0) eqn:E0; [done|].
  destruct (messages c !! Z.to_nat (index c)) eqn:El; [|done].
  destruct (size c =? 0) eqn:Es; [done|].
  intros [= <-]. cbn. rewrite length_insert.
  assert (0 < size c) by lia.
  rewrite Z.rem_mod_nonneg by lia.
  pose proof (Z.mod_pos_bound (index c + 1) (size c)).
  destruct (count c <? size c) eqn:Ec; lia.
Qed.

Lemma wf_clear c : wf c -> wf (Clear c).
Proof. unfold wf, Clear. cbn. lia. Qed.

Lemma reachable_wf c : reachable c -> wf c.
Proof.
  induction 1; eauto using wf_new, wf_add, wf_clear.
Qed.

(** What the copy loop leaves in [result]: the slots [i .. i+fuel) are
    overwritten from the ring, the others are kept. *)
Lemma copy_loop_spec c sp fuel : forall i res,
  0 < size c -> Z.of_nat (length (messages c)) = size c -> 0 <= sp -> 0 <= i ->
  exists r, copy_loop c sp i fuel res = Some r /\ length r = length res /\
    forall j : nat,
      r !! j = if decide ((Z.to_nat i <= j < Z.to_nat i + fuel)%nat /\ (j < length res)%nat)
               then messages c !! Z.to_nat ((sp + Z.of_nat j) mod size c)
               else res !! j.
Proof.
  induction fuel as [|fuel IH]; intros i res Hs Hl Hsp Hi; cbn [copy_loop].
  - exists res. split; [done|]. split; [done|]. intros j. case_decide; [lia|done].
  - rewrite Z.rem_mod_nonneg by lia.
    pose proof (Z.mod_pos_bound (sp + i) (size c) Hs) as Hb.
    destruct (at_index_Some (messages c) ((sp + i) mod size c)) as (m & -> & Hm); [lia|].
    destruct (IH (i + 1) (<[Z.to_nat i := m]> res) Hs Hl Hsp ltac:(lia)) as (r & -> & Hlen & Hr).
    exists r. split; [done|]. rewrite length_insert in Hlen. split; [done|].
    intros j. rewrite Hr, length_insert.
    destruct (decide (j = Z.to_nat i)) as [->|Hne].
    + rewrite Z2Nat.id by lia.
      case_decide; [lia|].
      case_decide.
      * rewrite list_lookup_insert_eq by lia. by rewrite Hm.
      * rewrite list_insert_ge by lia. done.
    + rewrite list_lookup_insert_ne by done.
      case_decide; case_decide; try done; lia.
Qed.

(** The ring after the history [hist] has been added to a cache of capacity
    [N]: slot [i mod N] holds [hist !! i] for the last [count] positions. *)
Definition ring (c : RecentMessageCache) (N : Z) (hist : list Message) : Prop :=
  0 < N /\ size c = N /\ Z.of_nat (length (messages c)) = N /\
  count c = Z.min (Z.of_nat (length hist)) N /\
  index c = Z.of_nat (length hist) mod N /\
  forall i : nat, Z.of_nat (length hist) - count c <= Z.of_nat i < Z.of_nat (length hist) ->
    messages c !! Z.to_nat (Z.of_nat i mod N) = hist !! i.

Lemma ring_new N c : 0 < N -> NewRecentMessageCache N = Some c -> ring c N [].
Proof.
  unfold NewRecentMessageCache. intros HN. destruct (N <? 0) eqn:E; [lia|].
  intros [= <-]. unfold ring. cbn. rewrite length_replicate.
  repeat split; try lia; intros; lia.
Qed.

Lemma ring_add c N hist m :
  ring c N hist -> exists c', Add c m = Some c' /\ ring c' N (hist ++ [m]).
Proof.
  intros (HN & Hs & Hl & Hc & Hi & Hslots).
  pose proof (Z.mod_pos_bound (Z.of_nat (length hist)) N HN) as Hb.
  unfold Add.
  destruct (at_index_Some (messages c) (index c)) as (m0 & -> & _); [lia|].
  destruct (size c =? 0) eqn:Es; [lia|].
  eexists. split; [reflexivity|].
  unfold ring. cbn. rewrite length_insert, length_app. cbn [length].
  rewrite Hs, Hi. repeat split; try lia.
  - destruct (count c <? N) eqn:Ec; lia.
  - rewrite Z.rem_mod_nonneg by lia.
    rewrite Nat2Z.inj_add. cbn. rewrite Zplus_mod_idemp_l. done.
  - intros i Hrange.
    set (L := Z.of_nat (length hist)) in *.
    destruct (decide (Z.of_nat i = L)) as [Heq|Hne].
    + rewrite Heq. rewrite list_lookup_insert_eq by lia.
      assert (i = length hist) as -> by lia.
      rewrite lookup_app_r by lia. by rewrite Nat.sub_diag.
    + assert (Z.of_nat i < L) as Hlt by (destruct (count c <? N); lia).
      assert (Z.of_nat i mod N <> L mod N) as Hmod.
      { intros Heq.
        assert (L - N < Z.of_nat i) by (destruct (count c <? N) eqn:Ec; lia).
        assert ((L - Z.of_nat i) mod N = 0) as H0.
        { rewrite Zminus_mod, Heq, Z.sub_diag. by apply Z.mod_0_l; lia. }
        rewrite Z.mod_small in H0 by lia. lia. }
      pose proof (Z.mod_pos_bound (Z.of_nat i) N HN).
      rewrite list_lookup_insert_ne by lia.
      rewrite lookup_app_l by lia.
      apply Hslots. destruct (count c <? N) eqn:Ec; lia.
Qed.

Lemma ring_add_all ms : forall c N hist,
  ring c N hist -> exists c', add_all c ms = Some c' /\ ring c' N (hist ++ ms).
Proof.
  induction ms as [|m ms IH]; intros c N hist Hr; cbn [add_all].
  - exists c. by rewrite app_nil_r.
  - destruct (ring_add c N hist m Hr) as (c1 & -> & Hr1).
    destruct (IH c1 N (hist ++ [m]) Hr1) as (c' & Hc' & Hr').
    exists c'. split; [done|]. by rewrite <- app_assoc in Hr'.
Qed.

(** [GetLast] on a ring returns the tail of the history. *)
Lemma ring_GetLast c N hist k :
  ring c N hist -> 0 <= k ->
  GetLast c k = Some (drop (length hist - Z.to_nat (Z.min k (count c))) hist).
Proof.
  intros (HN & Hs & Hl & Hc & Hi & Hslots) Hk.
  set (L := Z.of_nat (length hist)) in *.
  unfold GetLast.
  set (n := if k >? count c then count c else k).
  assert (n = Z.min k (count c)) as Hn by (subst n; destruct (k >? count c) eqn:E; lia).
  rewrite <- Hn.
  destruct (n =? 0) eqn:E0.
  { assert (n = 0) as -> by lia. cbn. rewrite Nat.sub_0_r. by rewrite drop_all. }
  destruct (n <? 0) eqn:E1; [lia|].
  destruct (size c =? 0) eqn:E2; [lia|].
  assert (0 <= index c < N) by (rewrite Hi; apply Z.mod_pos_bound; lia).
  rewrite Hs. rewrite Z.rem_mod_nonneg by lia.
  destruct (copy_loop_spec c ((index c - n + N) mod N) (Z.to_nat n) 0
              (replicate (Z.to_nat n) zeroMessage)) as (r & -> & Hlen & Hr);
    try lia.
  { apply Z.mod_pos_bound. lia. }
  f_equal. apply list_eq. intros j.
  rewrite Hr, lookup_drop, length_replicate, Hs.
  case_decide as Hj.
  - rewrite Zplus_mod_idemp_l, Hi.
    replace (L mod N - n + N + Z.of_nat j) with (L mod N + (Z.of_nat j - n + N)) by lia.
    rewrite Zplus_mod_idemp_l.
    replace (L + (Z.of_nat j - n + N)) with (L - n + Z.of_nat j + 1 * N) by lia.
    rewrite Z.mod_add by lia.
    replace (L - n + Z.of_nat j) with (Z.of_nat (length hist - Z.to_nat n + j)) by lia.
    apply Hslots. lia.
  - rewrite (lookup_ge_None_2 (replicate _ _)) by (rewrite length_replicate; lia).
    symmetry. apply lookup_ge_None_2. lia.
Qed.

(** C7.  RecentCache correctness.  On a cache of capacity [N] (at least one
    slot), after any sequence [ms] of [Add]s: no [Add] panics, the stored
    count is [min (length ms) N] and so never exceeds [N], the slice keeps
    its [N] slots, the content read back by [GetAll] is [ms] without its
    oldest [length ms - N] elements (the oldest are the ones evicted), and for
    every [k >= 0], [GetLast k] is the [min k count] most recent messages,
    oldest of those first.  On the empty cache every [GetLast] is empty. *)
Theorem recent_cache_correct (N : Z) (ms : list Message) :
  0 < N ->
  exists c0 c,
    NewRecentMessageCache N = Some c0 /\ add_all c0 ms = Some c /\
    count c = Z.min (Z.of_nat (length ms)) N /\ count c <= N /\
    Z.of_nat (length (messages c)) = N /\
    GetAll c = Some (drop (length ms - Z.to_nat N) ms) /\
    (forall k, 0 <= k ->
       GetLast c k = Some (drop (length ms - Z.to_nat (Z.min k (count c))) ms)) /\
    (forall k, 0 <= k -> GetLast c0 k = Some []).
Proof.
  intros HN.
  assert (exists c0, NewRecentMessageCache N = Some c0) as [c0 H0].
  { unfold NewRecentMessageCache. destruct (N <? 0) eqn:E; [lia|eauto]. }
  pose proof (ring_new N c0 HN H0) as Hr0.
  destruct (ring_add_all ms c0 N [] Hr0) as (c & Hc & Hr). cbn in Hr.
  exists c0, c. pose proof Hr as (_ & Hs & Hl & Hcnt & _).
  repeat split; try done; try lia.
  - unfold GetAll. rewrite (ring_GetLast c N ms (count c) Hr) by lia.
    do 2 f_equal. lia.
  - intros k Hk. by apply (ring_GetLast c N ms k Hr).
  - intros k Hk. rewrite (ring_GetLast c0 N [] k Hr0) by lia. done.
Qed.

Lemma recent_cache_correct_witness :
  0 < 2 /\
  exists c0 c,
    NewRecentMessageCache 2 = Some c0 /\
    add_all c0 [Msg.mkMessage "1" "t" "a" "{}" 1; Msg.mkMessage "2" "t" "a" "{}" 2;
                Msg.mkMessage "3" "t" "a" "{}" 3] = Some c /\
    GetAll c = Some [Msg.mkMessage "2" "t" "a" "{}" 2; Msg.mkMessage "3" "t" "a" "{}" 3].
Proof.
  split; [lia|].
  destruct (recent_cache_correct 2
              [Msg.mkMessage "1" "t" "a" "{}" 1; Msg.mkMessage "2" "t" "a" "{}" 2;
               Msg.mkMessage "3" "t" "a" "{}" 3] ltac:(lia))
    as (c0 & c & H0 & Hc & _ & _ & _ & Hall & _).
  exists c0, c. repeat split; assumption.
Defined.

Lemma wf_GetLast c n :
  wf c -> 0 <= n ->
  exists l, GetLast c n = Some l /\ Z.of_nat (length l) = Z.min n (count c).
Proof.
  intros (Hl & Hc & Hi0 & Hi) Hn. unfold GetLast.
  set (n' := if n >? count c then count c else n).
  assert (n' = Z.min n (count c)) as Hn' by (subst n'; destruct (n >? count c) eqn:E; lia).
  destruct (n' =? 0) eqn:E0.
  { exists []. split; [done|]. cbn. lia. }
  destruct (n' <? 0) eqn:E1; [lia|].
  destruct (size c =? 0) eqn:E2; [lia|].
  rewrite Z.rem_mod_nonneg by lia.
  destruct (copy_loop_spec c ((index c - n' + size c) mod size c) (Z.to_nat n') 0
              (replicate (Z.to_nat n') zeroMessage)) as (r & -> & Hlen & _);
    try lia.
  { apply Z.mod_pos_bound. lia. }
  exists r. split; [done|]. rewrite Hlen, length_replicate. lia.
Qed.

Lemma GetLast_negative c n : n < 0 -> 0 < count c -> GetLast c n = None.
Proof.
  intros Hn Hc. unfold GetLast.
  destruct (n >? count c) eqn:E; [lia|].
  destruct (n =? 0) eqn:E0; [lia|].
  destruct (n <? 0) eqn:E1; [done|lia].
Qed.

(** C10.  [GetLast] is total on non-negative arguments only.  In every state
    a cache can reach, [GetLast n] with [n >= 0] returns a list of length
    [min n count]; with [n < 0] and [count > 0] it panics (the slice
    allocation).  The callers stay on the total side: [GetAll] passes
    [count], which is never negative, and returns; the catch-up
    ([Topic.sendRecentMessages]) passes 50, so its read returns and the
    catch-up is the replay loop over what it read. *)
Theorem GetLast_total_on_nonneg (c : RecentMessageCache) (n : Z) :
  reachable c ->
  (0 <= n -> exists l, GetLast c n = Some l /\ Z.of_nat (length l) = Z.min n (count c)) /\
  (n < 0 -> 0 < count c -> GetLast c n = None) /\
  (0 <= count c /\ exists l, GetAll c = Some l /\ Z.of_nat (length l) = count c) /\
  (exists recent, GetLast c 50 = Some recent /\
     forall t sub, Topic.recentCache t = c ->
       Topic.sendRecentMessages t sub = Topic.send_recent_loop recent sub).
Proof.
  intros Hr. pose proof (reachable_wf c Hr) as Hwf.
  split; [by apply wf_GetLast|].
  split; [by apply GetLast_negative|].
  pose proof Hwf as (_ & Hc & _).
  split.
  - split; [lia|]. unfold GetAll.
    destruct (wf_GetLast c (count c) Hwf ltac:(lia)) as (l & Hl & Hlen).
    exists l. split; [done|lia].
  - destruct (wf_GetLast c 50 Hwf ltac:(lia)) as (recent & Hrec & _).
    exists recent. split; [done|].
    intros t sub <-. unfold Topic.sendRecentMessages. by rewrite Hrec.
Qed.

Lemma GetLast_total_on_nonneg_witness :
  exists c, reachable c /\ count c = 1 /\
    (exists l, GetLast c 1 = Some l /\ Z.of_nat (length l) = Z.min 1 (count c)) /\
    GetLast c (-1) = None.
Proof.
  assert (reachable (mkCache [Msg.mkMessage "1" "t" "a" "{}" 1; zeroMessage] 2 1 1)) as Hr.
  { apply (reach_add (mkCache [zeroMessage; zeroMessage] 2 0 0)
             (Msg.mkMessage "1" "t" "a" "{}" 1)); [|reflexivity].
    apply (reach_new 2). reflexivity. }
  exists (mkCache [Msg.mkMessage "1" "t" "a" "{}" 1; zeroMessage] 2 1 1).
  destruct (GetLast_total_on_nonneg _ 1 Hr) as (Hpos & _).
  destruct (GetLast_total_on_nonneg _ (-1) Hr) as (_ & Hneg & _).
  split; [exact Hr|]. split; [reflexivity|].
  split; [apply Hpos; lia|apply Hneg; [lia|cbn; lia]].
Defined.

End RecentCacheFacts.

(** ** Subscriber *)

Module SubFacts.
Import Sub.

(** A send that finds the inbox of a circuit-breaker subscriber full: it
    closes and reports the breaker when [droppedCount] is above 100, and
    otherwise returns [nil] with the message neither stored nor counted. *)
Lemma circuit_breaker_send_full (s : Subscriber) (msg : Message) :
  dropStrategy s = CIRCUIT_BREAKER -> closed s = false ->
  capacity s <= Z.of_nat (length (messageChan s)) ->
  SendMessages s msg =
    Some (if droppedCount s >? 100
          then (Close (add_recieved s), Some ErrCircuitBreaker)
          else (add_recieved s, None)).
Proof.
  intros Hd Hc Hfull. unfold SendMessages, try_send. cbn.
  rewrite Hc.
  destruct (Z.of_nat (length (messageChan s)) <? capacity s) eqn:E; [lia|].
  unfold handleBackPressure. cbn. rewrite Hd.
  by destruct (droppedCount s >? 100).
Qed.

(** C2.  What the code does on the scenario of the claim.  The
    circuit-breaker arm reads [droppedCount] and never increments it, so on a
    subscriber whose count is at most 100 every send that finds the inbox
    full returns [nil], the count, the inbox and the open state stay as they
    were, and only [messagesRecieved] moves: no number of such sends closes
    the subscriber. *)
Theorem circuit_breaker_never_trips (msgs : list Message) : forall s : Subscriber,
  dropStrategy s = CIRCUIT_BREAKER -> closed s = false ->
  capacity s <= Z.of_nat (length (messageChan s)) ->
  droppedCount s <= 100 ->
  exists s', send_all s msgs = Some (s', replicate (length msgs) None) /\
    closed s' = false /\ droppedCount s' = droppedCount s /\
    messageChan s' = messageChan s /\
    messagesRecieved s' = messagesRecieved s + Z.of_nat (length msgs).
Proof.
  induction msgs as [|m msgs IH]; intros s Hd Hc Hfull Hle; cbn [send_all length replicate].
  - exists s. repeat split; try done. lia.
  - rewrite (circuit_breaker_send_full s m Hd Hc Hfull).
    destruct (droppedCount s >? 100) eqn:E; [lia|].
    destruct (IH (add_recieved s)) as (s' & -> & Hc' & Hd' & Hq' & Hr'); try done.
    exists s'. repeat split; try done. rewrite Hr'. cbn. lia.
Qed.

Lemma circuit_breaker_never_trips_witness :
  exists s', send_all
      (mkSubscriber "s1" "a" "t" [Msg.mkMessage "0" "t" "a" "{}" 0] 1 CIRCUIT_BREAKER 0 1 0 0 false [])
      (replicate 101 (Msg.mkMessage "n" "t" "a" "{}" 1))
    = Some (s', replicate 101 None) /\ closed s' = false /\ droppedCount s' = 0.
Proof.
  destruct (circuit_breaker_never_trips (replicate 101 (Msg.mkMessage "n" "t" "a" "{}" 1))
              (mkSubscriber "s1" "a" "t" [Msg.mkMessage "0" "t" "a" "{}" 0] 1 CIRCUIT_BREAKER
                 0 1 0 0 false []))
    as (s' & Hs & Hc & Hd & _); [reflexivity|reflexivity|cbn; lia|cbn; lia|].
  exists s'. rewrite length_replicate in Hs. repeat split; assumption.
Defined.

(** *** Drop accounting *)

Lemma accounted_Close (s : Subscriber) : accounted s -> accounted (Close s).
Proof. unfold accounted, Close. by destruct (closed s). Qed.

Lemma dropStrategy_Close (s : Subscriber) : dropStrategy (Close s) = dropStrategy s.
Proof. unfold Close. by destruct (closed s). Qed.

(** A send keeps the equation under every strategy but the circuit breaker. *)
Lemma accounted_SendMessages (s s' : Subscriber) (msg : Message) (e : option SendError) :
  dropStrategy s <> CIRCUIT_BREAKER -> accounted s ->
  SendMessages s msg = Some (s', e) ->
  accounted s' /\ dropStrategy s' = dropStrategy s.
Proof.
  unfold accounted, SendMessages, try_send. cbn. intros Hd Hacc.
  destruct (closed s) eqn:Hc; [done|].
  destruct (Z.of_nat (length (messageChan s)) <? capacity s) eqn:Hroom.
  { intros [= <- <-]. cbn. rewrite length_app. cbn. split; [lia|done]. }
  unfold handleBackPressure. cbn.
  destruct (dropStrategy s) eqn:Hs; [| |done|].
  - unfold try_recv, try_send. cbn. rewrite Hc.
    destruct (messageChan s) as [|m q] eqn:Hq; rewrite ?Hq in Hroom, Hacc; cbn; rewrite ?Hc, ?Hq.
    + cbn in *. rewrite Hroom.
      intros [= <- <-]. cbn. rewrite Hq. cbn. split; [lia|done].
    + cbn in *. destruct (Z.of_nat (length q) <? capacity s) eqn:E.
      * intros [= <- <-]. cbn. rewrite length_app. cbn. split; [lia|done].
      * intros [= <- <-]. cbn. split; [lia|done].
  - intros [= <- <-]. cbn. split; [lia|done].
  - intros [= <- <-]. cbn. split; [lia|done].
Qed.

(** A turn of the delivery loop keeps it unless it loses the message it took. *)
Lemma accounted_sendLoop_step (ev : LoopEvent) (s s' : Subscriber) (r : bool) :
  accounted s -> write_fails (EvLoop ev) s = false ->
  sendLoop_step ev s = Some (s', r) ->
  accounted s' /\ dropStrategy s' = dropStrategy s.
Proof.
  unfold accounted. intros Hacc Hw. destruct ev as [ok now|ok| |]; cbn in *.
  - destruct (messageChan s) as [|m q] eqn:Hq.
    + destruct (closed s); [|done]. intros [= <- <-]. rewrite Hq. done.
    + apply negb_false_iff in Hw. rewrite Hw.
      intros [= <- <-]. cbn in *. split; [lia|done].
  - destruct (ok && negb (closed s)).
    + by intros [= <- <-].
    + intros [= <- <-]. split; [by apply accounted_Close|apply dropStrategy_Close].
  - destruct (closed s); [|done]. by intros [= <- <-].
  - by intros [= <- <-].
Qed.

(** C3 (amended).  Drop accounting.  Starting from a subscriber on which
    [received = sent + dropped + inbox length] holds (a new one does) and
    whose strategy is not the circuit breaker, the equation holds after every
    sequence of [SendMessages] calls, delivery-loop turns and [Close] calls in
    which no write of a dequeued message fails. *)
Theorem drop_accounting (evs : list Event) : forall (s0 s : Subscriber) (running r : bool),
  dropStrategy s0 <> CIRCUIT_BREAKER -> accounted s0 ->
  writes_succeed evs (s0, running) = true ->
  run evs (s0, running) = Some (s, r) ->
  accounted s.
Proof.
  induction evs as [|e evs IH]; intros s0 s running r Hd Hacc Hw Hrun; cbn [run] in Hrun.
  - by injection Hrun as <- <-.
  - cbn [writes_succeed] in Hw. apply andb_true_iff in Hw as [Hw1 Hw2].
    apply negb_true_iff in Hw1. cbn [fst] in Hw1.
    destruct (step e (s0, running)) as [[s1 r1]|] eqn:Hstep; [|done].
    cbn [step] in Hstep.
    assert (accounted s1 /\ dropStrategy s1 = dropStrategy s0) as [Hacc1 Hd1].
    { destruct e as [msg|ev|].
      - destruct (SendMessages s0 msg) as [[s' err]|] eqn:Hsend; [|done].
        injection Hstep as <- <-. exact (accounted_SendMessages s0 s' msg err Hd Hacc Hsend).
      - destruct running; [|done]. exact (accounted_sendLoop_step ev s0 s1 r1 Hacc Hw1 Hstep).
      - injection Hstep as <- <-.
        split; [by apply accounted_Close|apply dropStrategy_Close]. }
    eapply (IH s1 s r1 r); try done. by rewrite Hd1.
Qed.

Lemma drop_accounting_witness :
  accounted (mkSubscriber "s1" "a" "t" [Msg.mkMessage "3" "t" "a" "{}" 3] 1 DROP_OLDEST 1 3 1 7 false
               [Msg.mkMessage "1" "t" "a" "{}" 1]).
Proof.
  apply (drop_accounting
           [EvSend (Msg.mkMessage "1" "t" "a" "{}" 1); EvLoop (RecvMsg true 7);
            EvSend (Msg.mkMessage "2" "t" "a" "{}" 2); EvSend (Msg.mkMessage "3" "t" "a" "{}" 3)]
           (mkSubscriber "s1" "a" "t" [] 1 DROP_OLDEST 0 0 0 0 false []) _ true true).
  - discriminate.
  - reflexivity.
  - reflexivity.
  - reflexivity.
Defined.

(** C3, the claim as stated fails.  A new subscriber with the default
    strategy takes one message; its delivery loop dequeues it, the write
    fails and the loop closes the subscriber: one message was received, none
    was sent, none was dropped and the inbox is empty. *)
Lemma drop_accounting_fails_on_write_failure :
  exists s0 s,
    NewSubscriber "s1" "a" "t" 0 1 = Some s0 /\
    run [EvSend (Msg.mkMessage "1" "t" "a" "{}" 1); EvLoop (RecvMsg false 5)] (s0, true)
      = Some (s, false) /\
    closed s = true /\
    messagesRecieved s = 1 /\
    messagesSent s + droppedCount s + Z.of_nat (length (messageChan s)) = 0.
Proof. do 2 eexists. repeat split. Qed.

(** The silent discard of the circuit breaker is not counted either. *)
Lemma circuit_breaker_discard_unaccounted :
  exists s,
    SendMessages
      (mkSubscriber "s1" "a" "t" [Msg.mkMessage "1" "t" "a" "{}" 1] 1 CIRCUIT_BREAKER 0 1 0 0 false [])
      (Msg.mkMessage "2" "t" "a" "{}" 2) = Some (s, None) /\
    messagesRecieved s = 2 /\
    messagesSent s + droppedCount s + Z.of_nat (length (messageChan s)) = 1.
Proof. eexists. repeat split. Qed.

(** *** Health *)

(** C9 (amended).  [IsHealthy] returns true exactly when [lastActive] is at
    most 60 s old and either nothing was received or the float64 ratio
    [dropped/received] is not greater than 0.1.  So a subscriber that has
    received nothing is healthy whatever [dropped] is, and one at the ratio
    1/10 is healthy too (provided it is fresh). *)
Theorem IsHealthy_iff (now : Z) (s : Subscriber) :
  (IsHealthy now s = true <->
     time_Sub now (lastActive s) <= 60 * Second /\
     (messagesRecieved s <= 0 \/
      float_gt (PrimFloat.div (float_of_int64 (droppedCount s))
                              (float_of_int64 (messagesRecieved s))) f0_1 = false)) /\
  (time_Sub now (lastActive s) <= 60 * Second -> messagesRecieved s = 0 ->
     IsHealthy now s = true) /\
  (time_Sub now (lastActive s) <= 60 * Second ->
     droppedCount s = 1 -> messagesRecieved s = 10 -> IsHealthy now s = true).
Proof.
  assert (IsHealthy now s = true <->
     time_Sub now (lastActive s) <= 60 * Second /\
     (messagesRecieved s <= 0 \/
      float_gt (PrimFloat.div (float_of_int64 (droppedCount s))
                              (float_of_int64 (messagesRecieved s))) f0_1 = false)) as Hiff.
  { unfold IsHealthy.
    destruct (time_Sub now (lastActive s) >? 60 * Second) eqn:Et.
    { split; [done|]. intros [Ht _]. lia. }
    destruct (messagesRecieved s >? 0) eqn:Er.
    - destruct (float_gt _ f0_1) eqn:Ef.
      + split; [done|]. intros [_ [Hr|Hf]]; [lia|done].
      + split; [|done]. intros _. split; [lia|by right].
    - split; [|done]. intros _. split; [lia|left; lia]. }
  split; [exact Hiff|]. split.
  - intros Ht Hr. apply Hiff. split; [done|left; lia].
  - intros Ht Hd Hr. apply Hiff. split; [done|right]. rewrite Hd, Hr. reflexivity.
Qed.

(** C9, the claim as stated fails.  With [dropped = 1] and [received = 10]
    the ratio is exactly the float64 0.1, which is not strictly below 0.1, and
    with [received = 0] the ratio is not a number; the specification's
    predicate is false on both and [IsHealthy] is true. *)
Lemma IsHealthy_not_strict :
  IsHealthy 0 (mkSubscriber "s1" "a" "t" [] 100 DROP_OLDEST 1 10 9 0 false []) = true /\
  spec_is_healthy 0 (mkSubscriber "s1" "a" "t" [] 100 DROP_OLDEST 1 10 9 0 false []) = false /\
  IsHealthy 0 (mkSubscriber "s1" "a" "t" [] 100 DROP_OLDEST 0 0 0 0 false []) = true /\
  spec_is_healthy 0 (mkSubscriber "s1" "a" "t" [] 100 DROP_OLDEST 0 0 0 0 false []) = false.
Proof. repeat split; vm_compute; reflexivity. Qed.

End SubFacts.

(** ** AddaptiveBufferManager *)

Module BufferFacts.
Import Buffer.

Lemma wrap_small (w x : Z) : 0 < w -> - 2 ^ (w - 1) <= x < 2 ^ (w - 1) -> wrap w x = x.
Proof.
  intros Hw Hx. unfold wrap.
  assert (2 ^ w = 2 * 2 ^ (w - 1)) as Hp.
  { replace w with (Z.succ (w - 1)) at 1 by lia. rewrite Z.pow_succ_r by lia. done. }
  rewrite Z.mod_small by lia. lia.
Qed.

(** C4 (amended).  One recalculation step, [alloc] being the heap usage read
    at that step.  With no subscriber the step returns at once and stores
    nothing: the advertised size is the one of before.  With at least one
    subscriber, and as long as the per-subscriber message count fits the
    [int32] it is converted to, the step stores
    [clamp((max(0, max_total_memory - alloc) / subscriber_count) / 1024, 100, 1000)],
    which is the specification's formula since [max(1, subscriber_count)] is
    then [subscriber_count]. *)
Theorem recalculate_spec (adm : AddaptiveBufferManager) (alloc : Z) :
  (suncriberCount adm = 0 -> recalculate adm alloc = adm) /\
  (0 < suncriberCount adm ->
   min_int64 <= maxTotalMemory adm <= max_int64 ->
   0 <= alloc <= max_int64 ->
   min_int64 <= maxTotalMemory adm - alloc ->
   (Z.max 0 (maxTotalMemory adm - alloc) / suncriberCount adm) / 1024 < 2 ^ 31 ->
   bufferSize (recalculate adm alloc)
     = spec_buffer_size (maxTotalMemory adm) (suncriberCount adm) alloc /\
   maxTotalMemory (recalculate adm alloc) = maxTotalMemory adm /\
   suncriberCount (recalculate adm alloc) = suncriberCount adm).
Proof.
  split.
  { intros H0. unfold recalculate. by rewrite H0. }
  intros Hc HM Ha Hsub Hfit. unfold recalculate, min_int64, max_int64 in *.
  destruct (suncriberCount adm =? 0) eqn:E0; [lia|]. cbn [bufferSize maxTotalMemory suncriberCount].
  split; [|done].
  unfold wrap64. rewrite (wrap_small 64 alloc) by lia.
  rewrite (wrap_small 64 (maxTotalMemory adm - alloc)) by lia.
  replace (if maxTotalMemory adm - alloc <? 0 then 0 else maxTotalMemory adm - alloc)
    with (Z.max 0 (maxTotalMemory adm - alloc))
    by (destruct (maxTotalMemory adm - alloc <? 0) eqn:E; lia).
  set (a := Z.max 0 (maxTotalMemory adm - alloc)) in *.
  set (c := suncriberCount adm) in *.
  assert (0 <= a <= 2 ^ 63 - 1) as Hrange by lia.
  rewrite (Z.quot_div_nonneg a c) by lia.
  assert (0 <= a / c <= a) as Hq.
  { split; [apply Z.div_pos; lia|]. apply Z.div_le_upper_bound; nia. }
  rewrite (wrap_small 64 (a / c)) by lia.
  unfold AvgMessSize. rewrite (Z.quot_div_nonneg (a / c) 1024) by lia.
  assert (0 <= a / c / 1024) by (apply Z.div_pos; lia).
  unfold wrap32. rewrite (wrap_small 32) by lia.
  unfold spec_buffer_size, clamp, MinBifferSize, MaxBufferSize.
  rewrite (Z.max_r 1 c) by lia. fold a.
  set (b := a / c / 1024) in *.
  destruct (b <? 100) eqn:E1.
  - destruct (100 >? 1000) eqn:E2; lia.
  - destruct (b >? 1000) eqn:E2; lia.
Qed.

Lemma recalculate_spec_witness :
  bufferSize (recalculate (mkManager (2048 * 1024 * 1024) 10000 1000 false) (100 * 1024 * 1024))
    = spec_buffer_size (2048 * 1024 * 1024) 10000 (100 * 1024 * 1024).
Proof.
  apply (recalculate_spec (mkManager (2048 * 1024 * 1024) 10000 1000 false) (100 * 1024 * 1024));
    vm_compute; try reflexivity; try (split; discriminate); discriminate.
Defined.

(** C4, the claim as stated fails at zero subscribers.  A new manager for
    1 MiB advertises 1000; a recalculation that reads a heap of 2 000 000
    bytes leaves 1000 there, where the formula of the claim gives 100. *)
Lemma recalculate_zero_subscribers :
  suncriberCount (NewAdaptiveBufferManager 1048576) = 0 /\
  bufferSize (recalculate (NewAdaptiveBufferManager 1048576) 2000000) = 1000 /\
  spec_buffer_size 1048576 0 2000000 = 100.
Proof. repeat split. Qed.

End BufferFacts.

(** ** AdaptiveThrottler *)

Module ThrottleFacts.
Import Throttle.

(** *** The throttle window *)

(** While every sleeping goroutine wakes up at [limit] or later and the flag
    is set, events before [limit] leave it set. *)
Lemma flag_held (limit : Z) (evs : list (Z * TimedEvent)) :
  forall (st at' : AdaptiveThrottler) (tcur : Z),
    isThrottling st = true ->
    Forall (fun wake => limit <= wake) (timers st) ->
    limit <= tcur + ThrottleDuration (config st) ->
    Forall (fun e => e.1 < limit) evs ->
    timed_run st tcur evs = Some at' ->
    isThrottling at' = true.
Proof.
  induction evs as [|[t ev] evs IH]; intros st at' tcur Hflag Htimers Hcur Hevs Hrun;
    cbn [timed_run] in Hrun.
  - by injection Hrun as <-.
  - apply Forall_cons in Hevs as [Ht Hevs]. cbn [fst] in Ht.
    destruct (t <? tcur) eqn:Etc; [done|].
    destruct ev as [|i]; cbn [timed_step] in Hrun.
    + apply (IH (StartThrottling st t) at' t); try done.
      * cbn. apply Forall_app. split; [done|]. apply Forall_singleton. lia.
      * cbn. lia.
    + destruct (timers st !! i) as [wake|] eqn:Hi; [|done].
      destruct (wake <=? t) eqn:Ew; [|done].
      rewrite Forall_lookup in Htimers. specialize (Htimers i wake Hi). lia.
Qed.

(** C5 (amended).  Throttle hysteresis.  An arm at [t0] made while no disarm
    goroutine sleeps keeps [isThrottling] set through every schedule of arms
    and wake-ups before [t0 + ThrottleDuration].  Arms made inside that
    window do not extend it: the goroutine of the first arm may wake up at
    [t0 + ThrottleDuration] and clears the flag then, leaving the later arm's
    own goroutine asleep. *)
Theorem throttle_hysteresis (at_ : AdaptiveThrottler) (t0 : Z) :
  timers at_ = [] ->
  (forall (evs : list (Z * TimedEvent)) (at' : AdaptiveThrottler),
     Forall (fun e => e.1 < t0 + ThrottleDuration (config at_)) evs ->
     timed_run (StartThrottling at_ t0) t0 evs = Some at' ->
     isThrottling at' = true) /\
  (forall t1 : Z, t0 <= t1 <= t0 + ThrottleDuration (config at_) ->
     exists at',
       timed_run (StartThrottling at_ t0) t0
         [(t1, Arm); (t0 + ThrottleDuration (config at_), Fire 0)] = Some at' /\
       isThrottling at' = false /\
       timers at' = [t1 + ThrottleDuration (config at_)]).
Proof.
  intros Hnone. split.
  - intros evs at' Hevs Hrun.
    apply (flag_held (t0 + ThrottleDuration (config at_)) evs (StartThrottling at_ t0) at' t0);
      try done; try (cbn; lia).
    cbn. rewrite Hnone. cbn. apply Forall_singleton. lia.
  - intros t1 Ht1. cbn. rewrite Hnone. cbn.
    destruct (t1 <? t0) eqn:E1; [lia|].
    destruct (_ <? t1) eqn:E2; [lia|].
    destruct (_ <=? _) eqn:E3; [|lia].
    eexists. repeat split.
Qed.

Lemma throttle_hysteresis_witness :
  isThrottling (StartThrottling (StartThrottling (NewAdaptiveThrottler DefaultConfig 0) 0)
                  (3 * Second)) = true.
Proof.
  destruct (throttle_hysteresis (NewAdaptiveThrottler DefaultConfig 0) 0 eq_refl) as [Hheld _].
  apply (Hheld [(3 * Second, Arm)]).
  - apply Forall_singleton. reflexivity.
  - reflexivity.
Defined.

(** C5, the claim as stated fails.  Arms at 0 s and at 3 s; the goroutine of
    the first arm wakes up at 5 s and clears the flag, less than
    [ThrottleDuration] after the second arm. *)
Lemma second_arm_not_held :
  exists at',
    timed_run (NewAdaptiveThrottler DefaultConfig 0) 0
      [(0, Arm); (3 * Second, Arm); (5 * Second, Fire 0)] = Some at' /\
    isThrottling at' = false /\
    (5 * Second <? 3 * Second + ThrottleDuration DefaultConfig) = true.
Proof. eexists. repeat split. Qed.

(** *** The decision *)

(** The stored check time, read back by [time.Unix(sec, 0)], is the start
    of the whole second of the check. *)
Lemma stored_check_time (at_ : AdaptiveThrottler) (lastCheck : Z) :
  lastCheckTime at_ = lastCheck / Second ->
  time_of_Unix (lastCheckTime at_) = lastCheck - lastCheck mod Second.
Proof.
  intros ->. unfold time_of_Unix.
  pose proof (Z.div_mod lastCheck Second) as Hdm. unfold Second in *. lia.
Qed.

(** C6 (amended).  [ShouldThrottle].  The check time is stored in whole
    seconds: [NewAdaptiveThrottler] and every sampling call at [now] store
    [now / Second], and a call that does not sample leaves it.  So let
    [lastCheck] be the time of the last check, of which the throttler holds
    [lastCheck / Second], and let [elapsed] be the time from the start of
    that whole second to [now] (as [Time.Sub] gives it).  If the flag is set
    the call returns true and touches nothing.  Otherwise, if [elapsed] is
    less than [CheckInterval], it returns the flag as it is (the cached
    decision) and touches nothing: no sampling.  Otherwise it stores the
    check time, samples the CPU and memory signals, and returns
    [slow/total > SlowSubThreshold && (cpu > CPUThreshold || mem > MemoryThreshold)],
    or false when [total] is 0; the throttle is armed (flag set, disarm
    goroutine started) exactly when that decision is true.  Measured from the
    last check itself, the cached window is [CheckInterval] less the fraction
    of a second at which that check was made: at least [CheckInterval] after
    the last check the call always samples, and it may sample earlier by up
    to a second. *)
Theorem ShouldThrottle_spec (at_ : AdaptiveThrottler) (lastCheck now numGoroutines alloc : Z) :
  lastCheckTime at_ = lastCheck / Second ->
  let elapsed := time_Sub now (lastCheck - lastCheck mod Second) in
  let window := CheckInterval (config at_) - lastCheck mod Second in
  let cpu := cpu_usage numGoroutines in
  let mem := memory_usage alloc in
  let slow := float_of_int64 (slowSubCount at_) in
  let total := float_of_int64 (totalSubCount at_) in
  let decision :=
    if PrimFloat.eqb total 0%float then false
    else float_gt (PrimFloat.div slow total) (SlowSubThreshold (config at_)) &&
         (float_gt cpu (CPUThreshold (config at_)) || float_gt mem (MemoryThreshold (config at_))) in
  (isThrottling at_ = true ->
     ShouldThrottle at_ now numGoroutines alloc = (at_, true)) /\
  (isThrottling at_ = false -> elapsed < CheckInterval (config at_) ->
     ShouldThrottle at_ now numGoroutines alloc = (at_, isThrottling at_)) /\
  (isThrottling at_ = false -> CheckInterval (config at_) <= elapsed ->
     ShouldThrottle at_ now numGoroutines alloc
       = (if decision then StartThrottling (sampled at_ now numGoroutines alloc) now
          else sampled at_ now numGoroutines alloc, decision) /\
     isThrottling (ShouldThrottle at_ now numGoroutines alloc).1 = decision /\
     timers (ShouldThrottle at_ now numGoroutines alloc).1
       = (if decision then timers at_ ++ [now + ThrottleDuration (config at_)] else timers at_) /\
     lastCheckTime (ShouldThrottle at_ now numGoroutines alloc).1 = now / Second /\
     lastCPUUsage (ShouldThrottle at_ now numGoroutines alloc).1
       = uint64_of_float (PrimFloat.mul cpu 1000000%float) /\
     lastMemoryUsage (ShouldThrottle at_ now numGoroutines alloc).1
       = uint64_of_float (PrimFloat.mul mem 1000000%float)) /\
  (totalSubCount at_ = 0 -> decision = false) /\
  (min_int64 < CheckInterval (config at_) <= max_int64 ->
     (elapsed < CheckInterval (config at_) <-> now - lastCheck < window) /\
     CheckInterval (config at_) - Second < window <= CheckInterval (config at_)) /\
  (forall (cfg : Config) (t : Z), lastCheckTime (NewAdaptiveThrottler cfg t) = t / Second).
Proof.
  intros Hlast elapsed window cpu mem slow total decision.
  pose proof (stored_check_time at_ lastCheck Hlast) as Hstored.
  split; [|split; [|split; [|split; [|split]]]].
  - intros Hflag. unfold ShouldThrottle. by rewrite Hflag.
  - intros Hflag Hel. unfold ShouldThrottle. rewrite Hflag, Hstored.
    fold elapsed. destruct (elapsed <? CheckInterval (config at_)) eqn:E; [done|lia].
  - intros Hflag Hel.
    assert (ShouldThrottle at_ now numGoroutines alloc
            = (if decision then StartThrottling (sampled at_ now numGoroutines alloc) now
               else sampled at_ now numGoroutines alloc, decision)) as Heq.
    { unfold ShouldThrottle. rewrite Hflag, Hstored. fold elapsed.
      destruct (elapsed <? CheckInterval (config at_)) eqn:E; [lia|].
      cbn. fold cpu mem slow total. subst decision.
      destruct (PrimFloat.eqb total 0%float); [done|].
      unfold float_gt, sampled. fold cpu mem.
      by destruct (PrimFloat.ltb _ _ && _). }
    split; [exact Heq|]. rewrite Heq. cbn [fst].
    destruct decision; cbn; by rewrite ?Hflag.
  - intros H0. subst decision total. rewrite H0. reflexivity.
  - intros Hci.
    pose proof (Z.mod_pos_bound lastCheck Second eq_refl) as Hmod.
    split; [|subst window; lia].
    subst elapsed window. unfold time_Sub. lia.
  - intros cfg t. reflexivity.
Qed.

Lemma ShouldThrottle_spec_witness :
  ShouldThrottle
    (mkThrottler DefaultConfig false 1 6 10 0 0 []) (3 * Second) 12000 (1024 * 1024)
  = (StartThrottling (sampled (mkThrottler DefaultConfig false 1 6 10 0 0 [])
                        (3 * Second) 12000 (1024 * 1024)) (3 * Second), true).
Proof.
  destruct (ShouldThrottle_spec (mkThrottler DefaultConfig false 1 6 10 0 0 [])
              (1900 * Millisecond) (3 * Second) 12000 (1024 * 1024) eq_refl)
    as (_ & _ & Hsample & _).
  destruct Hsample as (Heq & _); [reflexivity|vm_compute; discriminate|].
  exact Heq.
Defined.

(** C6, the claim as stated fails.  Six of ten subscribers are slow.  A call
    at 1.9 s under low load samples, decides false and stores the check time
    1 (whole seconds).  A call at 2.0 s, 0.1 s after that check and so inside
    the check interval of 1 s, does not return the cached decision: it
    samples again (the stored CPU signal changes) and, the load being high
    now, arms the throttle and returns true. *)
Lemma ShouldThrottle_samples_again_inside_interval :
  exists at1 at2 : AdaptiveThrottler,
    ShouldThrottle (UpdateSubscriber (NewAdaptiveThrottler DefaultConfig 0) 6 10)
      (1900 * Millisecond) 10 (1024 * 1024) = (at1, false) /\
    lastCheckTime at1 = 1 /\ lastCPUUsage at1 = 10000 /\
    (2000 * Millisecond - 1900 * Millisecond <? CheckInterval DefaultConfig) = true /\
    ShouldThrottle at1 (2000 * Millisecond) 12000 (1024 * 1024) = (at2, true) /\
    lastCheckTime at2 = 2 /\ lastCPUUsage at2 = 900000 /\
    isThrottling at2 = true /\ timers at2 = [2000 * Millisecond + ThrottleDuration DefaultConfig].
Proof. eexists _, _. repeat split. Qed.

End ThrottleFacts.

(** ** Topic: the catch-up *)

Module TopicFacts.
Import RecentCache Sub Topic.

(** Every [SendMessages] that returns counts one received message. *)
Lemma SendMessages_recieved (s s' : Subscriber) (msg : Message) (e : option SendError) :
  SendMessages s msg = Some (s', e) -> messagesRecieved s' = messagesRecieved s + 1.
Proof.
  unfold SendMessages, try_send. cbn.
  destruct (closed s) eqn:Hc; [done|].
  destruct (_ <? capacity s); [by intros [= <- <-]|].
  unfold handleBackPressure. cbn.
  destruct (dropStrategy s).
  - unfold try_recv, try_send. cbn. rewrite Hc.
    destruct (messageChan s) as [|m q]; cbn; rewrite ?Hc.
    + destruct (_ <? capacity s); by intros [= <- <-].
    + destruct (_ <? capacity s); by intros [= <- <-].
  - by intros [= <- <-].
  - destruct (droppedCount s >? 100); intros [= <- <-]; [|done].
    unfold Close. cbn. by rewrite Hc.
  - by intros [= <- <-].
Qed.

(** The replay attempts at most the messages it was given. *)
Lemma send_recent_loop_bounded (recent : list Message) : forall sub sub' : Subscriber,
  send_recent_loop recent sub = Some sub' ->
  messagesRecieved sub <= messagesRecieved sub' <= messagesRecieved sub + Z.of_nat (length recent).
Proof.
  induction recent as [|m rest IH]; intros sub sub'; cbn [send_recent_loop length].
  - intros [= <-]. lia.
  - destruct (SendMessages sub m) as [[s1 [e|]]|] eqn:Hsend; [| |done].
    + intros [= <-]. apply SendMessages_recieved in Hsend. lia.
    + intros Hrest. apply IH in Hrest. apply SendMessages_recieved in Hsend. lia.
Qed.

(** With room for all of them the replay stores them all, in order. *)
Lemma send_recent_loop_room (recent : list Message) : forall sub : Subscriber,
  closed sub = false ->
  Z.of_nat (length (messageChan sub)) + Z.of_nat (length recent) <= capacity sub ->
  send_recent_loop recent sub =
    Some (mkSubscriber (ID sub) (TenantID sub) (Sub.Topic sub) (messageChan sub ++ recent)
            (capacity sub) (dropStrategy sub) (droppedCount sub)
            (messagesRecieved sub + Z.of_nat (length recent)) (messagesSent sub)
            (lastActive sub) (closed sub) (written sub)).
Proof.
  induction recent as [|m rest IH]; intros sub Hc Hroom; cbn [send_recent_loop length] in *.
  - rewrite app_nil_r, Z.add_0_r. by destruct sub.
  - unfold SendMessages, try_send. cbn. rewrite Hc.
    destruct (_ <? capacity sub) eqn:E; [|lia].
    rewrite IH by (cbn; rewrite ?length_app; cbn; first [exact Hc | lia]).
    cbn. rewrite <- app_assoc. cbn. do 2 f_equal; first [lia | done].
Qed.

(** A run of sends counts one received message for each. *)
Lemma send_all_recieved (msgs : list Message) : forall (s s' : Subscriber) es,
  send_all s msgs = Some (s', es) ->
  messagesRecieved s' = messagesRecieved s + Z.of_nat (length msgs).
Proof.
  induction msgs as [|m rest IH]; intros s s' es; cbn [send_all length].
  - intros [= <- _]. lia.
  - destruct (SendMessages s m) as [[s1 e]|] eqn:Hsend; [|done].
    destruct (send_all s1 rest) as [[s2 es2]|] eqn:Hrest; [|done].
    intros [= <- _]. apply IH in Hrest. apply SendMessages_recieved in Hsend. lia.
Qed.

(** The replay goes through the sends that return [nil] ... *)
Lemma send_recent_loop_through (pre : list Message) : forall (rest : list Message) (sub s_mid : Subscriber),
  send_all sub pre = Some (s_mid, replicate (length pre) None) ->
  send_recent_loop (pre ++ rest) sub = send_recent_loop rest s_mid.
Proof.
  induction pre as [|m pre IH]; intros rest sub s_mid; cbn [send_all length replicate app].
  - by intros [= <-].
  - cbn [send_recent_loop].
    destruct (SendMessages sub m) as [[s1 e]|] eqn:Hsend; [|done].
    destruct (send_all s1 pre) as [[s2 es]|] eqn:Hpre; [|done].
    intros [= <- -> Hes]. apply IH. by rewrite Hpre, Hes.
Qed.

(** ... and returns at the first one that returns an error, wherever it is:
    the messages after it are not sent. *)
Lemma send_recent_loop_stops (pre rest : list Message) (m : Message)
    (sub s_mid s1 : Subscriber) (e : SendError) :
  send_all sub pre = Some (s_mid, replicate (length pre) None) ->
  SendMessages s_mid m = Some (s1, Some e) ->
  send_recent_loop (pre ++ m :: rest) sub = Some s1.
Proof.
  intros Hpre Hsend. rewrite (send_recent_loop_through pre (m :: rest) sub s_mid Hpre).
  cbn [send_recent_loop]. by rewrite Hsend.
Qed.

(** C8 (amended).  For a topic whose cache of capacity [N] was filled by the
    publications [ms], let [k = min 50 count] and [recent] be the last [k]
    of [ms], oldest first.  The catch-up is the replay of exactly [recent]
    in that order; it sends one after the other and stops at the first send
    that returns an error, at whatever position: when the sends of a prefix
    [pre] of [recent] all return [nil] and the send of the next message
    returns an error, the catch-up ends in the state right after that send,
    having attempted [length pre + 1] messages and none of those behind it;
    when all sends return [nil] it ends after the last.  So it attempts at
    most [k] messages; when the subscriber is open and its inbox has room for
    [k] more, all [k] are appended to the inbox in insertion order.
    [Subscribe] itself returns [nil] for a subscriber of the topic's tenant
    whatever the state of its inbox, and only starts the catch-up. *)
Theorem catch_up_bounded_ordered (t : Topic) (p : nat) (sub : Subscriber)
    (N : Z) (c0 : RecentMessageCache) (ms : list Message) :
  0 < N -> NewRecentMessageCache N = Some c0 -> add_all c0 ms = Some (recentCache t) ->
  let k := Z.min 50 (count (recentCache t)) in
  let recent := drop (length ms - Z.to_nat k) ms in
  Z.of_nat (length recent) = k /\
  sendRecentMessages t sub = send_recent_loop recent sub /\
  (forall sub', sendRecentMessages t sub = Some sub' ->
     messagesRecieved sub <= messagesRecieved sub' <= messagesRecieved sub + k) /\
  (forall pre m rest s_mid s1 e, recent = pre ++ m :: rest ->
     send_all sub pre = Some (s_mid, replicate (length pre) None) ->
     SendMessages s_mid m = Some (s1, Some e) ->
     sendRecentMessages t sub = Some s1 /\
     messagesRecieved s1 = messagesRecieved sub + Z.of_nat (length pre) + 1) /\
  (forall s', send_all sub recent = Some (s', replicate (length recent) None) ->
     sendRecentMessages t sub = Some s' /\
     messagesRecieved s' = messagesRecieved sub + k) /\
  (closed sub = false -> Z.of_nat (length (messageChan sub)) + k <= capacity sub ->
     sendRecentMessages t sub =
       Some (mkSubscriber (ID sub) (TenantID sub) (Sub.Topic sub) (messageChan sub ++ recent)
               (capacity sub) (dropStrategy sub) (droppedCount sub)
               (messagesRecieved sub + k) (messagesSent sub)
               (lastActive sub) (closed sub) (written sub))) /\
  (tenantID t = Sub.TenantID sub ->
     (Subscribe t p sub).1.2 = None /\
     (Subscribe t p sub).2 = [GoSendRecentMessages p; GoSendLoop p]).
Proof.
  intros HN H0 Hadd k recent.
  pose proof (RecentCacheFacts.ring_new N c0 HN H0) as Hr0.
  destruct (RecentCacheFacts.ring_add_all ms c0 N [] Hr0) as (c & Hc & Hr).
  cbn in Hr. rewrite Hadd in Hc. injection Hc as <-.
  pose proof Hr as (_ & _ & _ & Hcnt & _).
  assert (Z.of_nat (length recent) = k) as Hlen.
  { subst recent k. rewrite length_drop. lia. }
  assert (sendRecentMessages t sub = send_recent_loop recent sub) as Hreplay.
  { unfold sendRecentMessages.
    by rewrite (RecentCacheFacts.ring_GetLast (recentCache t) N ms 50 Hr) by lia. }
  split; [exact Hlen|]. split; [exact Hreplay|].
  split; [|split; [|split; [|split]]].
  - intros sub' Hs. rewrite Hreplay in Hs.
    apply send_recent_loop_bounded in Hs. lia.
  - intros pre m rest s_mid s1 e Hrec Hpre Hsend. split.
    + rewrite Hreplay, Hrec. by apply (send_recent_loop_stops pre rest m sub s_mid s1 e).
    + apply send_all_recieved in Hpre. apply SendMessages_recieved in Hsend. lia.
  - intros s' Hall. split.
    + rewrite Hreplay. rewrite <- (app_nil_r recent) at 1.
      by rewrite (send_recent_loop_through recent [] sub s' Hall).
    + apply send_all_recieved in Hall. lia.
  - intros Hopen Hroom. rewrite Hreplay, <- Hlen.
    apply send_recent_loop_room; [done|lia].
  - intros Hten. unfold Subscribe.
    rewrite bool_decide_eq_false_2 by (intros Hne; by apply Hne). done.
Qed.

Lemma catch_up_bounded_ordered_witness :
  sendRecentMessages
    (mkTopic "t" "a" ∅
       (mkCache [Msg.mkMessage "3" "t" "a" "{}" 3; Msg.mkMessage "2" "t" "a" "{}" 2] 2 1 2) 3 0 0)
    (mkSubscriber "s1" "a" "t" [] 100 DROP_OLDEST 0 0 0 0 false [])
  = Some (mkSubscriber "s1" "a" "t"
            [Msg.mkMessage "2" "t" "a" "{}" 2; Msg.mkMessage "3" "t" "a" "{}" 3]
            100 DROP_OLDEST 0 2 0 0 false []) /\
  sendRecentMessages
    (mkTopic "t" "a" ∅
       (mkCache [Msg.mkMessage "1" "t" "a" "{}" 1; Msg.mkMessage "2" "t" "a" "{}" 2;
                 Msg.mkMessage "3" "t" "a" "{}" 3; zeroMessage] 4 3 3) 3 0 0)
    (mkSubscriber "s1" "a" "t" [] 1 DROP_NEWEST 0 0 0 0 false [])
  = Some (mkSubscriber "s1" "a" "t" [Msg.mkMessage "1" "t" "a" "{}" 1] 1 DROP_NEWEST
            1 2 0 0 false []).
Proof.
  split.
  - destruct (catch_up_bounded_ordered
                (mkTopic "t" "a" ∅
                   (mkCache [Msg.mkMessage "3" "t" "a" "{}" 3; Msg.mkMessage "2" "t" "a" "{}" 2] 2 1 2)
                   3 0 0)
                0%nat (mkSubscriber "s1" "a" "t" [] 100 DROP_OLDEST 0 0 0 0 false [])
                2 (mkCache [zeroMessage; zeroMessage] 2 0 0)
                [Msg.mkMessage "1" "t" "a" "{}" 1; Msg.mkMessage "2" "t" "a" "{}" 2;
                 Msg.mkMessage "3" "t" "a" "{}" 3])
      as (_ & _ & _ & _ & _ & Hroom & _); [lia|reflexivity|reflexivity|].
    apply Hroom; [reflexivity|cbn; lia].
  - destruct (catch_up_bounded_ordered
                (mkTopic "t" "a" ∅
                   (mkCache [Msg.mkMessage "1" "t" "a" "{}" 1; Msg.mkMessage "2" "t" "a" "{}" 2;
                             Msg.mkMessage "3" "t" "a" "{}" 3; zeroMessage] 4 3 3) 3 0 0)
                0%nat (mkSubscriber "s1" "a" "t" [] 1 DROP_NEWEST 0 0 0 0 false [])
                4 (mkCache [zeroMessage; zeroMessage; zeroMessage; zeroMessage] 4 0 0)
                [Msg.mkMessage "1" "t" "a" "{}" 1; Msg.mkMessage "2" "t" "a" "{}" 2;
                 Msg.mkMessage "3" "t" "a" "{}" 3])
      as (_ & _ & _ & Hstop & _); [lia|reflexivity|reflexivity|].
    apply (Hstop [Msg.mkMessage "1" "t" "a" "{}" 1] (Msg.mkMessage "2" "t" "a" "{}" 2)
             [Msg.mkMessage "3" "t" "a" "{}" 3]
             (mkSubscriber "s1" "a" "t" [Msg.mkMessage "1" "t" "a" "{}" 1] 1 DROP_NEWEST
                0 1 0 0 false [])
             _ ErrDroppedNewMessage); reflexivity.
Defined.

(** C8, the claim as stated fails.  Three messages are in the cache; the new
    subscriber drops the newest on a full inbox of capacity 1.  [Subscribe]
    returns [nil]; the catch-up stores the first message, the second send
    fails and the replay returns: one message is in the inbox, two were
    attempted, the third never was. *)
Lemma catch_up_stops_at_first_failure :
  count (mkCache [Msg.mkMessage "1" "t" "a" "{}" 1; Msg.mkMessage "2" "t" "a" "{}" 2;
                  Msg.mkMessage "3" "t" "a" "{}" 3; zeroMessage] 4 3 3) = 3 /\
  (Subscribe
     (mkTopic "t" "a" ∅
        (mkCache [Msg.mkMessage "1" "t" "a" "{}" 1; Msg.mkMessage "2" "t" "a" "{}" 2;
                  Msg.mkMessage "3" "t" "a" "{}" 3; zeroMessage] 4 3 3) 3 0 0)
     0%nat (mkSubscriber "s1" "a" "t" [] 1 DROP_NEWEST 0 0 0 0 false [])).1.2 = None /\
  sendRecentMessages
    (mkTopic "t" "a" ∅
       (mkCache [Msg.mkMessage "1" "t" "a" "{}" 1; Msg.mkMessage "2" "t" "a" "{}" 2;
                 Msg.mkMessage "3" "t" "a" "{}" 3; zeroMessage] 4 3 3) 3 0 0)
    (mkSubscriber "s1" "a" "t" [] 1 DROP_NEWEST 0 0 0 0 false [])
  = Some (mkSubscriber "s1" "a" "t" [Msg.mkMessage "1" "t" "a" "{}" 1] 1 DROP_NEWEST
            1 2 0 0 false []).
Proof. repeat split. Qed.

End TopicFacts.

(** ** Tenant isolation *)

Module IsolationFacts.
Import Sub.

(** [Topic.Subscribe] rejects a subscriber of another tenant and leaves the
    topic as it was. *)
Lemma Topic_Subscribe_rejects (t : Topic.Topic) (p : nat) (sub : Subscriber) :
  Topic.tenantID t <> TenantID sub ->
  Topic.Subscribe t p sub = (t, Some Topic.ErrTenantMismatch, []).
Proof.
  intros Hne. unfold Topic.Subscribe. by rewrite bool_decide_eq_true_2.
Qed.

(** [TopicManager.Subscribe] rejects a subscriber whose tenant is not the one
    it is called for. *)
Lemma TopicManager_Subscribe_rejects (tm : TopicManager.TopicManager) (h : gmap nat Subscriber)
    (tenant_id topic_name subscriberID : string) (p : nat) (sub : Subscriber) (now : Z) :
  h !! p = Some sub -> TenantID sub <> tenant_id ->
  TopicManager.Subscribe tm h tenant_id topic_name subscriberID p now
    = Some (tm, Some TopicManager.ErrManagerTenantMismatch, []).
Proof.
  intros Hp Hne. unfold TopicManager.Subscribe. rewrite Hp.
  by rewrite bool_decide_eq_true_2.
Qed.

(** What does hold.  A send of a message of the subscriber's tenant, a turn
    of the delivery loop and a close keep the subscriber among those that
    only hold messages of their tenant. *)
Lemma SendMessages_own_tenant (s s' : Subscriber) (msg : Message) (e : option SendError) :
  own_tenant_only s -> Msg.TenantID msg = TenantID s ->
  SendMessages s msg = Some (s', e) ->
  own_tenant_only s' /\ TenantID s' = TenantID s.
Proof.
  unfold own_tenant_only, SendMessages, try_send. cbn. intros [Hq Hw] Hm.
  destruct (closed s) eqn:Hc; [done|].
  destruct (_ <? capacity s).
  { intros [= <- <-]. cbn. repeat split; try done.
    apply Forall_app. split; [done|by apply Forall_singleton]. }
  unfold handleBackPressure. cbn.
  destruct (dropStrategy s).
  - unfold try_recv, try_send. cbn. rewrite Hc.
    destruct (messageChan s) as [|m q] eqn:Eq; cbn; rewrite ?Hc.
    + destruct (_ <? capacity s); intros [= <- <-]; cbn; rewrite ?Eq; repeat split; try done.
      by apply Forall_singleton.
    + apply Forall_cons in Hq as [_ Hq].
      destruct (_ <? capacity s); intros [= <- <-]; cbn; repeat split; try done.
      apply Forall_app. split; [done|by apply Forall_singleton].
  - by intros [= <- <-].
  - destruct (droppedCount s >? 100); intros [= <- <-]; [|done].
    unfold Close. cbn. by rewrite Hc.
  - by intros [= <- <-].
Qed.

Lemma sendLoop_step_own_tenant (ev : LoopEvent) (s s' : Subscriber) (r : bool) :
  own_tenant_only s -> sendLoop_step ev s = Some (s', r) ->
  own_tenant_only s' /\ TenantID s' = TenantID s.
Proof.
  unfold own_tenant_only. intros [Hq Hw].
  assert (own_tenant_only (Close s) /\ TenantID (Close s) = TenantID s) as HClose
    by (unfold own_tenant_only, Close; by destruct (closed s)).
  destruct ev as [ok now|ok| |]; cbn.
  - destruct (messageChan s) as [|m q] eqn:Eq.
    + destruct (closed s); [|done]. intros [= <- <-]. by rewrite Eq.
    + apply Forall_cons in Hq as [Hm Hq].
      destruct (ok && negb (closed s)); intros [= <- <-]; cbn.
      * repeat split; try done. apply Forall_app. split; [done|by apply Forall_singleton].
      * unfold Close. cbn. by destruct (closed s).
  - destruct (ok && negb (closed s)); by intros [= <- <-].
  - destruct (closed s); [|done]. by intros [= <- <-].
  - by intros [= <- <-].
Qed.

(** The fan-out of a message to subscribers of the message's tenant keeps
    every subscriber of the store among them. *)
Lemma fan_out_own_tenant (msg : Message) (snapshot : list nat) :
  forall h h' : gmap nat Subscriber,
    (forall p sub, h !! p = Some sub -> own_tenant_only sub) ->
    (forall p sub, p ∈ snapshot -> h !! p = Some sub -> TenantID sub = Msg.TenantID msg) ->
    Topic.fan_out snapshot msg h = Some h' ->
    forall p sub', h' !! p = Some sub' ->
      own_tenant_only sub' /\ exists sub, h !! p = Some sub /\ TenantID sub' = TenantID sub.
Proof.
  induction snapshot as [|q rest IH]; intros h h' Hown Hten; cbn [Topic.fan_out].
  - intros [= <-] p sub' Hp. split; [by eapply Hown|by exists sub'].
  - destruct (h !! q) as [sq|] eqn:Hq; [|done].
    destruct (SendMessages sq msg) as [[sq' e]|] eqn:Hsend; [|done].
    intros Hrest p sub' Hp.
    destruct (SendMessages_own_tenant sq sq' msg e) as [Hown' Hten']; try done.
    { by eapply Hown. }
    { symmetry. eapply Hten; [|done]. by left. }
    destruct (IH (<[q := sq']> h) h') with (p := p) (sub' := sub') as [Ho (sub & Hsub & Ht)];
      try done.
    + intros p0 s0. destruct (decide (q = p0)) as [->|Hne].
      * rewrite lookup_insert_eq. by intros [= <-].
      * rewrite lookup_insert_ne by done. apply Hown.
    + intros p0 s0 Hin. destruct (decide (q = p0)) as [->|Hne].
      * rewrite lookup_insert_eq. intros [= <-]. rewrite Hten'.
        eapply Hten; [|done]. by left.
      * rewrite lookup_insert_ne by done. apply Hten. by right.
    + split; [done|]. destruct (decide (q = p)) as [->|Hne].
      * rewrite lookup_insert_eq in Hsub. injection Hsub as <-.
        exists sq. split; [done|congruence].
      * rewrite lookup_insert_ne in Hsub by done. by exists sub.
Qed.

(** [Topic.Publish] of a message of the topic's tenant, on a topic whose
    subscribers are all of its tenant ([Topic.Subscribe] lets no other in). *)
Lemma Topic_Publish_own_tenant (t t' : Topic.Topic) (h h' : gmap nat Subscriber) (msg : Message) :
  Msg.TenantID msg = Topic.tenantID t ->
  (forall p sub, h !! p = Some sub -> own_tenant_only sub) ->
  (forall id p sub, Topic.subscribers t !! id = Some p -> h !! p = Some sub ->
     TenantID sub = Topic.tenantID t) ->
  Topic.Publish t h msg = Some (t', h') ->
  forall p sub', h' !! p = Some sub' -> own_tenant_only sub'.
Proof.
  intros Hm Hown Hsubs. unfold Topic.Publish.
  destruct (RecentCache.Add (Topic.recentCache t) msg) as [c|]; [|done].
  destruct (Topic.fan_out _ msg h) as [h1|] eqn:Hfan; [|done].
  intros [= <- <-] p sub' Hp.
  eapply (fan_out_own_tenant msg _ h h1); try done.
  intros p0 s0 Hin Hp0. unfold Topic.getSubscribersSnapshot in Hin. cbn in Hin.
  apply list_elem_of_fmap in Hin as ([id p1] & -> & Hin).
  apply elem_of_map_to_list in Hin. rewrite Hm. by eapply Hsubs.
Qed.

(** C1.  What the code does on two tenants whose keys collide.  The key of a
    topic is [tenant ++ ":" ++ name], so tenant ["a"] with topic ["b:c"] and
    tenant ["a:b"] with topic ["c"] name the same topic.  A client of tenant
    ["a"] subscribes to ["b:c"] through the subscribe adapter; a client of
    tenant ["a:b"] publishes to ["c"] through the publish adapter.
    [TopicManager.Publish] finds the topic of tenant ["a"] under the key and
    fans the message out: the subscriber of tenant ["a"] holds, and its
    delivery loop writes to its connection, a message whose tenant is
    ["a:b"]. *)
Theorem tenant_leak_by_key_collision :
  TopicManager.makeTopicKey "a" "b:c" = TopicManager.makeTopicKey "a:b" "c" /\
  match Handlers.Subscribe_ServeHTTP
          (TopicManager.NewTopicManager (Buffer.NewAdaptiveBufferManager (2048 * 1024 * 1024)))
          ∅ (Some "a"%string) "b:c" true "sub-1" 0%nat 0 with
  | Some (tm1, h1, _, Handlers.SubscribeServing) =>
      match Handlers.Publish_ServeHTTP tm1 h1 true (Some "a:b"%string)
              (Some ("c"%string, Some "{}"%string)) "msg-1" 1 with
      | Some (_, h2, Handlers.RespondSuccess _) =>
          match h2 !! 0%nat with
          | Some sub =>
              match sendLoop_step (RecvMsg true 2) sub with
              | Some (sub', _) => Some (TenantID sub', messageChan sub, written sub')
              | None => None
              end
          | None => None
          end
      | _ => None
      end
  | _ => None
  end = Some ("a"%string,
              [Msg.mkMessage "msg-1" "c" "a:b" "{}" 1],
              [Msg.mkMessage "msg-1" "c" "a:b" "{}" 1]).
Proof. split; vm_compute; reflexivity. Qed.

(** The same through [TopicManager.Publish] alone: it takes the message as
    it is and never compares its tenant with the topic's. *)
Lemma publish_does_not_check_tenant :
  match Handlers.Subscribe_ServeHTTP
          (TopicManager.NewTopicManager (Buffer.NewAdaptiveBufferManager (2048 * 1024 * 1024)))
          ∅ (Some "a"%string) "t" true "sub-1" 0%nat 0 with
  | Some (tm1, h1, _, Handlers.SubscribeServing) =>
      match TopicManager.Publish tm1 h1 "a" "t" (Msg.mkMessage "msg-1" "t" "b" "{}" 1) 1 with
      | Some (_, h2) => messageChan <$> h2 !! 0%nat
      | None => None
      end
  | _ => None
  end = Some [Msg.mkMessage "msg-1" "t" "b" "{}" 1].
Proof. vm_compute. reflexivity. Qed.

End IsolationFacts.

(** * Further properties of the code *)

(** ** RecentMessageCache: reset, round trip, degenerate capacity *)

Module CacheMore.
Import RecentCache RecentCacheFacts.

Lemma Add_size c m c' : Add c m = Some c' -> size c' = size c.
Proof.
  unfold Add. destruct (at_index _ _); [|done].
  destruct (size c =? 0); [done|]. by intros [= <-].
Qed.

Lemma ring_Clear c N hist : ring c N hist -> ring (Clear c) N [].
Proof.
  intros (HN & Hs & Hl & _). unfold ring, Clear. cbn.
  repeat split; try done; try lia; intros; lia.
Qed.

(** A reachable cache with at least one slot is a ring over some history. *)
Lemma reachable_ring c : reachable c -> 0 < size c -> exists hist, ring c (size c) hist.
Proof.
  induction 1 as [sz c Hnew|c m c' Hreach IH Hadd|c Hreach IH]; intros Hpos.
  - assert (size c = sz) as Hsz.
    { unfold NewRecentMessageCache in Hnew. destruct (sz <? 0); [done|].
      by injection Hnew as <-. }
    exists []. rewrite Hsz in *. by apply ring_new.
  - pose proof (Add_size c m c' Hadd) as Hsz. rewrite Hsz in *.
    destruct (IH Hpos) as [hist Hr].
    destruct (ring_add c (size c) hist m Hr) as (c1 & Hc1 & Hr1).
    rewrite Hadd in Hc1. injection Hc1 as <-. by exists (hist ++ [m]).
  - destruct (IH Hpos) as [hist Hr]. exists []. by eapply ring_Clear.
Qed.

(** X1.  [Clear] forgets the history: on any reachable cache with at least
    one slot, after [Clear] the count is 0 and [GetAll] is empty, and the
    messages [ms] added afterwards are read back as on a new cache: the
    count is [min (length ms) size] and [GetLast k] is the last
    [min k count] of [ms], whatever the cache held before. *)
Theorem Clear_resets (c : RecentMessageCache) (ms : list Message) :
  reachable c -> 0 < size c ->
  GetCount (Clear c) = 0 /\ GetAll (Clear c) = Some [] /\
  exists c', add_all (Clear c) ms = Some c' /\
    count c' = Z.min (Z.of_nat (length ms)) (size c) /\
    forall k, 0 <= k ->
      GetLast c' k = Some (drop (length ms - Z.to_nat (Z.min k (count c'))) ms).
Proof.
  intros Hreach Hpos.
  destruct (reachable_ring c Hreach Hpos) as [hist Hr].
  pose proof (ring_Clear c (size c) hist Hr) as Hr0.
  split; [done|]. split; [done|].
  destruct (ring_add_all ms (Clear c) (size c) [] Hr0) as (c' & Hc' & Hr').
  cbn in Hr'. exists c'. split; [done|].
  pose proof Hr' as (_ & _ & _ & Hcnt & _). split; [done|].
  intros k Hk. by apply (ring_GetLast c' (size c) ms k).
Qed.

Lemma Clear_resets_witness :
  exists c', add_all (Clear (mkCache [Msg.mkMessage "1" "t" "a" "{}" 1; zeroMessage] 2 1 1))
               [Msg.mkMessage "2" "t" "a" "{}" 2] = Some c' /\
             GetLast c' 5 = Some [Msg.mkMessage "2" "t" "a" "{}" 2].
Proof.
  assert (reachable (mkCache [Msg.mkMessage "1" "t" "a" "{}" 1; zeroMessage] 2 1 1)) as Hr.
  { apply (reach_add (mkCache [zeroMessage; zeroMessage] 2 0 0)
             (Msg.mkMessage "1" "t" "a" "{}" 1)); [|reflexivity].
    apply (reach_new 2). reflexivity. }
  destruct (Clear_resets _ [Msg.mkMessage "2" "t" "a" "{}" 2] Hr) as (_ & _ & c' & Hc' & Hcnt & Hget);
    [cbn; lia|].
  exists c'. split; [exact Hc'|].
  rewrite (Hget 5) by lia. rewrite Hcnt. reflexivity.
Defined.

(** X2.  Round trip: on any reachable cache with at least one slot, [Add]
    does not panic and the message just added is the one [GetLast 1] returns;
    the count grows by one until it reaches the capacity. *)
Theorem Add_then_GetLast (c : RecentMessageCache) (m : Message) :
  reachable c -> 0 < size c ->
  exists c', Add c m = Some c' /\ GetLast c' 1 = Some [m] /\
    count c' = Z.min (count c + 1) (size c) /\ size c' = size c.
Proof.
  intros Hreach Hpos.
  destruct (reachable_ring c Hreach Hpos) as [hist Hr].
  destruct (ring_add c (size c) hist m Hr) as (c' & Hc' & Hr').
  exists c'. split; [done|].
  pose proof Hr as (_ & _ & _ & Hcnt & _).
  pose proof Hr' as (_ & Hs' & _ & Hcnt' & _).
  rewrite length_app in Hcnt'. cbn in Hcnt'.
  split; [|split; [lia|done]].
  rewrite (ring_GetLast c' (size c) (hist ++ [m]) 1 Hr') by lia.
  f_equal. rewrite length_app. cbn.
  replace (length hist + 1 - Z.to_nat (Z.min 1 (count c')))%nat with (length hist) by lia.
  by rewrite drop_app_length.
Qed.

Lemma Add_then_GetLast_witness :
  exists c', Add (mkCache [zeroMessage; zeroMessage] 2 0 0) (Msg.mkMessage "1" "t" "a" "{}" 1)
             = Some c' /\ GetLast c' 1 = Some [Msg.mkMessage "1" "t" "a" "{}" 1].
Proof.
  destruct (Add_then_GetLast (mkCache [zeroMessage; zeroMessage] 2 0 0)
              (Msg.mkMessage "1" "t" "a" "{}" 1)) as (c' & Hadd & Hget & _).
  - apply (reach_new 2). reflexivity.
  - cbn. lia.
  - exists c'. split; assumption.
Defined.

(** X3.  The degenerate capacities.  The constructor panics on a negative
    size.  With size 0 it returns a cache on which every [Add] panics, while
    [GetLast] of any non-negative count returns the empty list. *)
Theorem zero_capacity_cache (sz n : Z) (m : Message) :
  (sz < 0 -> NewRecentMessageCache sz = None) /\
  exists c0, NewRecentMessageCache 0 = Some c0 /\ Add c0 m = None /\
    (0 <= n -> GetLast c0 n = Some []) /\ GetAll c0 = Some [] /\ GetCount c0 = 0.
Proof.
  split.
  - intros Hneg. unfold NewRecentMessageCache. destruct (sz <? 0) eqn:E; [done|lia].
  - eexists. split; [reflexivity|]. split; [reflexivity|].
    split; [|split; reflexivity].
    intros Hn. unfold GetLast. cbn.
    destruct (n >? 0) eqn:E; [done|]. destruct (n =? 0) eqn:E0; [done|lia].
Qed.

End CacheMore.

(** ** Subscriber: close, back-pressure, bounds, order *)

Module SubMore.
Import Sub SubInv.

(** X4.  [Close] is idempotent and changes nothing but the closed state:
    the inbox, the counters and what was written stay as they were. *)
Theorem Close_idempotent (s : Subscriber) :
  Close (Close s) = Close s /\ closed (Close s) = true /\
  messageChan (Close s) = messageChan s /\ written (Close s) = written s /\
  droppedCount (Close s) = droppedCount s /\
  messagesRecieved (Close s) = messagesRecieved s /\
  messagesSent (Close s) = messagesSent s.
Proof.
  unfold Close. destruct (closed s) eqn:Hc; cbn; rewrite ?Hc; done.
Qed.

(** X5.  A send on a closed subscriber panics (send on a closed channel),
    whatever the strategy and the state of the inbox. *)
Theorem SendMessages_closed_panics (s : Subscriber) (msg : Message) :
  closed s = true -> SendMessages s msg = None.
Proof.
  intros Hc. unfold SendMessages, try_send. cbn. by rewrite Hc.
Qed.

Lemma SendMessages_closed_panics_witness :
  SendMessages (mkSubscriber "s1" "a" "t" [] 4 DROP_OLDEST 0 0 0 0 true [])
    (Msg.mkMessage "1" "t" "a" "{}" 1) = None.
Proof. apply SendMessages_closed_panics. reflexivity. Defined.

(** X7.  A send that finds room appends the message to the inbox and
    returns [nil] under every strategy; only [messagesRecieved] moves. *)
Theorem SendMessages_with_room (s : Subscriber) (msg : Message) :
  closed s = false -> Z.of_nat (length (messageChan s)) < capacity s ->
  SendMessages s msg =
    Some (mkSubscriber (ID s) (TenantID s) (Topic s) (messageChan s ++ [msg]) (capacity s)
            (dropStrategy s) (droppedCount s) (messagesRecieved s + 1) (messagesSent s)
            (lastActive s) (closed s) (written s), None).
Proof.
  intros Hc Hroom. unfold SendMessages, try_send. cbn. rewrite Hc.
  destruct (_ <? capacity s) eqn:E; [|lia].
  unfold set_chan. cbn. by rewrite Hc.
Qed.

Lemma SendMessages_with_room_witness :
  SendMessages (mkSubscriber "s1" "a" "t" [] 1 DROP_NEWEST 0 0 0 0 false [])
    (Msg.mkMessage "1" "t" "a" "{}" 1)
  = Some (mkSubscriber "s1" "a" "t" [Msg.mkMessage "1" "t" "a" "{}" 1] 1 DROP_NEWEST
            0 1 0 0 false [], None).
Proof.
  apply (SendMessages_with_room (mkSubscriber "s1" "a" "t" [] 1 DROP_NEWEST 0 0 0 0 false []));
    [reflexivity|cbn; lia].
Defined.

(** X8.  DropOldest on a full inbox: the oldest message is taken out and
    counted as dropped, the new one is appended, and the send returns [nil]. *)
Theorem drop_oldest_evicts_head (s : Subscriber) (msg m : Message) (q : list Message) :
  dropStrategy s = DROP_OLDEST -> closed s = false ->
  messageChan s = m :: q -> capacity s = Z.of_nat (length (m :: q)) ->
  SendMessages s msg =
    Some (mkSubscriber (ID s) (TenantID s) (Topic s) (q ++ [msg]) (capacity s)
            DROP_OLDEST (droppedCount s + 1) (messagesRecieved s + 1) (messagesSent s)
            (lastActive s) false (written s), None).
Proof.
  intros Hd Hc Hq Hcap.
  unfold SendMessages, try_send, handleBackPressure, try_recv, try_send, set_chan,
    add_dropped, add_recieved.
  cbn. rewrite Hc, Hq, Hd, Hcap. cbn [length].
  destruct (Z.of_nat (S (length q)) <? Z.of_nat (S (length q))) eqn:E; [lia|].
  cbn.
  destruct (Z.of_nat (length q) <? Z.of_nat (S (length q))) eqn:E2; [done|].
  apply Z.ltb_ge in E2. rewrite Nat2Z.inj_succ in E2. lia.
Qed.

Lemma drop_oldest_evicts_head_witness :
  SendMessages
    (mkSubscriber "s1" "a" "t" [Msg.mkMessage "1" "t" "a" "{}" 1; Msg.mkMessage "2" "t" "a" "{}" 2]
       2 DROP_OLDEST 0 2 0 0 false [])
    (Msg.mkMessage "3" "t" "a" "{}" 3)
  = Some (mkSubscriber "s1" "a" "t"
            [Msg.mkMessage "2" "t" "a" "{}" 2; Msg.mkMessage "3" "t" "a" "{}" 3]
            2 DROP_OLDEST 1 3 0 0 false [], None).
Proof.
  apply (drop_oldest_evicts_head
           (mkSubscriber "s1" "a" "t"
              [Msg.mkMessage "1" "t" "a" "{}" 1; Msg.mkMessage "2" "t" "a" "{}" 2]
              2 DROP_OLDEST 0 2 0 0 false [])
           _ (Msg.mkMessage "1" "t" "a" "{}" 1) [Msg.mkMessage "2" "t" "a" "{}" 2]);
    reflexivity.
Defined.

(** X9.  DropNewest on a full inbox: the inbox keeps its content, the new
    message is counted as dropped and the send returns the buffer-full error;
    the subscriber stays open. *)
Theorem drop_newest_rejects (s : Subscriber) (msg : Message) :
  dropStrategy s = DROP_NEWEST -> closed s = false ->
  capacity s <= Z.of_nat (length (messageChan s)) ->
  SendMessages s msg =
    Some (mkSubscriber (ID s) (TenantID s) (Topic s) (messageChan s) (capacity s)
            DROP_NEWEST (droppedCount s + 1) (messagesRecieved s + 1) (messagesSent s)
            (lastActive s) false (written s), Some ErrDroppedNewMessage).
Proof.
  intros Hd Hc Hfull. unfold SendMessages, try_send. cbn. rewrite Hc.
  destruct (_ <? capacity s) eqn:E; [lia|].
  unfold handleBackPressure. cbn. rewrite Hd. unfold add_dropped. cbn. by rewrite ?Hd, ?Hc.
Qed.

Lemma drop_newest_rejects_witness :
  SendMessages
    (mkSubscriber "s1" "a" "t" [Msg.mkMessage "1" "t" "a" "{}" 1] 1 DROP_NEWEST 0 1 0 0 false [])
    (Msg.mkMessage "2" "t" "a" "{}" 2)
  = Some (mkSubscriber "s1" "a" "t" [Msg.mkMessage "1" "t" "a" "{}" 1] 1 DROP_NEWEST
            1 2 0 0 false [], Some ErrDroppedNewMessage).
Proof.
  apply (drop_newest_rejects
           (mkSubscriber "s1" "a" "t" [Msg.mkMessage "1" "t" "a" "{}" 1] 1 DROP_NEWEST
              0 1 0 0 false []));
    [reflexivity|reflexivity|cbn; lia].
Defined.

Lemma keeps_refl (s : Subscriber) : keeps s s.
Proof. unfold keeps. repeat split; try done; lia. Qed.

Lemma keeps_trans (s1 s2 s3 : Subscriber) : keeps s1 s2 -> keeps s2 s3 -> keeps s1 s3.
Proof.
  unfold keeps. intros (Hc1 & Hd1 & Hs1 & Hr1 & Hcl1 & Hb1) (Hc2 & Hd2 & Hs2 & Hr2 & Hcl2 & Hb2).
  split; [congruence|]. split; [lia|]. split; [lia|]. split; [lia|]. split.
  - intros Hx. destruct (Hcl1 Hx) as (H1 & Hw & Hm). destruct (Hcl2 H1) as (H2 & Hw2 & Hm2).
    repeat split; congruence.
  - intros Hx. apply Hb2. by apply Hb1.
Qed.

Lemma keeps_Close (s : Subscriber) : keeps s (Close s).
Proof.
  unfold keeps, Close. destruct (closed s) eqn:Hc; cbn; rewrite ?Hc;
    repeat split; try done; lia.
Qed.

Lemma keeps_SendMessages (s s' : Subscriber) (msg : Message) (e : option SendError) :
  SendMessages s msg = Some (s', e) -> keeps s s'.
Proof.
  unfold SendMessages, try_send. cbn.
  destruct (closed s) eqn:Hc; [done|].
  destruct (Z.of_nat (length (messageChan s)) <? capacity s) eqn:Hroom.
  { intros [= <- <-]. unfold keeps. cbn. rewrite Hc, length_app. cbn.
    repeat split; try done; lia. }
  unfold handleBackPressure. cbn.
  destruct (dropStrategy s).
  - unfold try_recv, try_send. cbn. rewrite Hc.
    destruct (messageChan s) as [|m q] eqn:Hq; rewrite ?Hq in Hroom; cbn; rewrite ?Hc, ?Hq.
    + cbn in *. rewrite Hroom. intros [= <- <-]. unfold keeps. cbn.
      rewrite ?Hc, ?Hq. cbn. repeat split; try done; lia.
    + cbn in *. destruct (Z.of_nat (length q) <? capacity s) eqn:E; intros [= <- <-];
        unfold keeps; cbn; rewrite ?Hc, ?Hq, ?length_app; cbn; repeat split; try done; lia.
  - intros [= <- <-]. unfold keeps. cbn. rewrite Hc. repeat split; try done; lia.
  - destruct (droppedCount s >? 100); intros [= <- <-].
    + apply (keeps_trans s (add_recieved s)); [|apply keeps_Close].
      unfold keeps. cbn. rewrite Hc. repeat split; try done; lia.
    + unfold keeps. cbn. rewrite Hc. repeat split; try done; lia.
  - intros [= <- <-]. unfold keeps. cbn. rewrite Hc. repeat split; try done; lia.
Qed.

Lemma keeps_sendLoop_step (ev : LoopEvent) (s s' : Subscriber) (r : bool) :
  sendLoop_step ev s = Some (s', r) -> keeps s s'.
Proof.
  destruct ev as [ok now|ok| |]; cbn.
  - destruct (messageChan s) as [|m q] eqn:Hq.
    + destruct (closed s); [|done]. intros [= <- <-]. apply keeps_refl.
    + destruct (closed s) eqn:Hc.
      * rewrite andb_false_r. intros [= <- <-].
        unfold keeps, Close. cbn. rewrite Hc, Hq. cbn. repeat split; try done; lia.
      * destruct ok; cbn; intros [= <- <-].
        -- unfold keeps. cbn. rewrite Hc, Hq. cbn. repeat split; try done; lia.
        -- unfold keeps, Close. cbn. rewrite Hc, Hq. cbn. repeat split; try done; lia.
  - destruct (ok && negb (closed s)); intros [= <- <-]; [apply keeps_refl|apply keeps_Close].
  - destruct (closed s); [|done]. intros [= <- <-]. apply keeps_refl.
  - intros [= <- <-]. apply keeps_refl.
Qed.

Lemma keeps_run (evs : list Event) : forall (s0 s : Subscriber) (r0 r : bool),
  run evs (s0, r0) = Some (s, r) -> keeps s0 s.
Proof.
  induction evs as [|e evs IH]; intros s0 s r0 r Hrun; cbn [run] in Hrun.
  - injection Hrun as <- <-. apply keeps_refl.
  - destruct (step e (s0, r0)) as [[s1 r1]|] eqn:Hstep; [|done].
    apply (keeps_trans s0 s1); [|by eapply IH].
    cbn [step] in Hstep. destruct e as [msg|ev|].
    + destruct (SendMessages s0 msg) as [[s' err]|] eqn:Hsend; [|done].
      injection Hstep as <- <-. by eapply keeps_SendMessages.
    + destruct r0; [|done]. by eapply keeps_sendLoop_step.
    + injection Hstep as <- <-. apply keeps_Close.
Qed.

(** X6.  Buffer bound.  Through every sequence of sends, delivery-loop
    turns and closes the inbox never holds more messages than the capacity
    the subscriber was created with, and that capacity never changes. *)
Theorem inbox_within_capacity (evs : list Event) (s0 s : Subscriber) (r0 r : bool) :
  Z.of_nat (length (messageChan s0)) <= capacity s0 ->
  run evs (s0, r0) = Some (s, r) ->
  Z.of_nat (length (messageChan s)) <= capacity s /\ capacity s = capacity s0.
Proof.
  intros Hb Hrun. destruct (keeps_run evs s0 s r0 r Hrun) as (Hc & _ & _ & _ & _ & Hbound).
  split; [by apply Hbound|done].
Qed.

Lemma inbox_within_capacity_witness :
  Z.of_nat (length (messageChan
     (mkSubscriber "s1" "a" "t" [Msg.mkMessage "3" "t" "a" "{}" 3] 1 DROP_OLDEST 2 3 0 0 false [])))
  <= capacity
       (mkSubscriber "s1" "a" "t" [Msg.mkMessage "3" "t" "a" "{}" 3] 1 DROP_OLDEST 2 3 0 0 false []).
Proof.
  refine (proj1 (inbox_within_capacity
           [EvSend (Msg.mkMessage "1" "t" "a" "{}" 1); EvSend (Msg.mkMessage "2" "t" "a" "{}" 2);
            EvSend (Msg.mkMessage "3" "t" "a" "{}" 3)]
           (mkSubscriber "s1" "a" "t" [] 1 DROP_OLDEST 0 0 0 0 false []) _ true true _ _)).
  - cbn. lia.
  - reflexivity.
Defined.

(** X11.  The counters only grow: no sequence of events lowers
    [droppedCount], [messagesSent] or [messagesRecieved]; so a subscriber
    that is slow ([IsSlow]) stays slow for the rest of its life. *)
Theorem slow_stays_slow (evs : list Event) (s0 s : Subscriber) (r0 r : bool) :
  run evs (s0, r0) = Some (s, r) ->
  droppedCount s0 <= droppedCount s /\ messagesSent s0 <= messagesSent s /\
  messagesRecieved s0 <= messagesRecieved s /\
  (IsSlow s0 = true -> IsSlow s = true).
Proof.
  intros Hrun. destruct (keeps_run evs s0 s r0 r Hrun) as (_ & Hd & Hs & Hr & _).
  repeat split; try done. unfold IsSlow. intros H0.
  destruct (droppedCount s0 >? 0) eqn:E0; [|done].
  destruct (droppedCount s >? 0) eqn:E; [done|lia].
Qed.

Lemma slow_stays_slow_witness :
  IsSlow (mkSubscriber "s1" "a" "t" [] 1 DROP_OLDEST 1 2 1 9 false
            [Msg.mkMessage "2" "t" "a" "{}" 2]) = true.
Proof.
  refine (proj2 (proj2 (proj2 (slow_stays_slow [EvLoop (RecvMsg true 9)]
           (mkSubscriber "s1" "a" "t" [Msg.mkMessage "2" "t" "a" "{}" 2] 1 DROP_OLDEST
              1 2 0 0 false []) _ true true _))) _); reflexivity.
Defined.

(** X12.  Closed is final.  From a closed subscriber every sequence of
    events that runs leaves it closed, writes nothing more to the connection
    and leaves [messagesSent] as it was. *)
Theorem closed_is_final (evs : list Event) (s0 s : Subscriber) (r0 r : bool) :
  closed s0 = true -> run evs (s0, r0) = Some (s, r) ->
  closed s = true /\ written s = written s0 /\ messagesSent s = messagesSent s0.
Proof.
  intros Hc Hrun. destruct (keeps_run evs s0 s r0 r Hrun) as (_ & _ & _ & _ & Hcl & _).
  by apply Hcl.
Qed.

Lemma closed_is_final_witness :
  written (mkSubscriber "s1" "a" "t" [] 1 DROP_OLDEST 0 1 0 0 true []) = [].
Proof.
  refine (proj1 (proj2 (closed_is_final [EvLoop (RecvMsg true 9)]
           (mkSubscriber "s1" "a" "t" [Msg.mkMessage "2" "t" "a" "{}" 2] 1 DROP_OLDEST
              0 1 0 0 true []) _ true false _ _))); reflexivity.
Defined.

Lemma run_app (a b : list Event) : forall st,
  run (a ++ b) st = match run a st with Some st' => run b st' | None => None end.
Proof.
  induction a as [|e a IH]; intros st; cbn [run app]; [done|].
  destruct (step e st); [apply IH|done].
Qed.

(** Sends that all find room. *)
Lemma run_sends_with_room (msgs : list Message) : forall (s : Subscriber) (r : bool),
  closed s = false ->
  Z.of_nat (length (messageChan s)) + Z.of_nat (length msgs) <= capacity s ->
  run (map EvSend msgs) (s, r) =
    Some (mkSubscriber (ID s) (TenantID s) (Topic s) (messageChan s ++ msgs) (capacity s)
            (dropStrategy s) (droppedCount s) (messagesRecieved s + Z.of_nat (length msgs))
            (messagesSent s) (lastActive s) false (written s), r).
Proof.
  induction msgs as [|m msgs IH]; intros s r Hc Hroom; cbn [map run length] in *.
  - rewrite app_nil_r, Z.add_0_r. destruct s. cbn in *. by rewrite Hc.
  - cbn [step]. unfold SendMessages, try_send. cbn. rewrite Hc.
    destruct (_ <? capacity s) eqn:E; [|lia].
    rewrite IH; cbn; rewrite ?length_app; cbn; try lia; [|done].
    rewrite <- app_assoc. cbn. do 3 f_equal. lia.
Qed.

(** Turns of the delivery loop that each take a message and write it. *)
Lemma run_deliveries (times : list Z) : forall (s : Subscriber) (q : list Message),
  closed s = false -> messageChan s = q -> length times = length q ->
  exists s', run (map (fun t => EvLoop (RecvMsg true t)) times) (s, true) = Some (s', true) /\
    written s' = written s ++ q /\ messageChan s' = [] /\ closed s' = false /\
    messagesSent s' = messagesSent s + Z.of_nat (length q) /\
    messagesRecieved s' = messagesRecieved s /\ droppedCount s' = droppedCount s.
Proof.
  induction times as [|t times IH]; intros s q Hc Hq Hlen.
  - destruct q; [|done]. exists s. cbn. rewrite app_nil_r. repeat split; try done. lia.
  - destruct q as [|m q]; [done|].
    set (s1 := mkSubscriber (ID s) (TenantID s) (Topic s) q (capacity s) (dropStrategy s)
                 (droppedCount s) (messagesRecieved s) (messagesSent s + 1) t false
                 (written s ++ [m])).
    assert (step (EvLoop (RecvMsg true t)) (s, true) = Some (s1, true)) as Hstep.
    { cbn. rewrite Hq. cbn. rewrite Hc. cbn. subst s1. by rewrite ?Hc. }
    destruct (IH s1 q) as (s' & Hrun & Hw & Hch & Hcl & Hs & Hr & Hd);
      [done|done|by injection Hlen|].
    exists s'. cbn [map run]. rewrite Hstep. split; [exact Hrun|].
    rewrite Hw, Hs, Hr, Hd. subst s1. cbn. rewrite <- app_assoc.
    repeat split; try done. lia.
Qed.

(** X10.  Order of delivery.  Messages sent to an open subscriber whose
    empty inbox has room for them, then taken one by one by the delivery loop
    with writes that succeed, reach the connection in the order they were
    sent; none is dropped and the inbox is empty again. *)
Theorem fifo_delivery (s : Subscriber) (msgs : list Message) (times : list Z) :
  closed s = false -> messageChan s = [] ->
  Z.of_nat (length msgs) <= capacity s -> length times = length msgs ->
  exists s',
    run (map EvSend msgs ++ map (fun t => EvLoop (RecvMsg true t)) times) (s, true)
      = Some (s', true) /\
    written s' = written s ++ msgs /\ messageChan s' = [] /\ closed s' = false /\
    messagesSent s' = messagesSent s + Z.of_nat (length msgs) /\
    messagesRecieved s' = messagesRecieved s + Z.of_nat (length msgs) /\
    droppedCount s' = droppedCount s.
Proof.
  intros Hc Hq Hroom Hlen. rewrite run_app.
  rewrite run_sends_with_room by (rewrite ?Hq; cbn; first [done|lia]).
  rewrite Hq. cbn [app].
  set (s1 := mkSubscriber _ _ _ msgs _ _ _ _ _ _ _ _).
  destruct (run_deliveries times s1 msgs) as (s' & Hrun & Hw & Hch & Hcl & Hs & Hr & Hd);
    [done|done|done|].
  exists s'. split; [exact Hrun|]. subst s1. cbn in *. by repeat split.
Qed.

Lemma fifo_delivery_witness :
  exists s',
    run [EvSend (Msg.mkMessage "1" "t" "a" "{}" 1); EvSend (Msg.mkMessage "2" "t" "a" "{}" 2);
         EvLoop (RecvMsg true 5); EvLoop (RecvMsg true 6)]
        (mkSubscriber "s1" "a" "t" [] 2 DROP_OLDEST 0 0 0 0 false [], true) = Some (s', true) /\
    written s' = [Msg.mkMessage "1" "t" "a" "{}" 1; Msg.mkMessage "2" "t" "a" "{}" 2].
Proof.
  destruct (fifo_delivery (mkSubscriber "s1" "a" "t" [] 2 DROP_OLDEST 0 0 0 0 false [])
              [Msg.mkMessage "1" "t" "a" "{}" 1; Msg.mkMessage "2" "t" "a" "{}" 2] [5; 6])
    as (s' & Hrun & Hw & _); [reflexivity|reflexivity|cbn; lia|reflexivity|].
  exists s'. split; [exact Hrun|exact Hw].
Defined.

End SubMore.

(** ** Topic: membership and fan-out *)

Module TopicMore.
Import Sub Topic.

Lemma size_pos_of_lookup (m : gmap string nat) (id : string) (p : nat) :
  m !! id = Some p -> (1 <= size m)%nat.
Proof.
  intros Hid. destruct (size m) eqn:Hsz; [|lia].
  apply map_size_empty_inv in Hsz. subst m. by rewrite lookup_empty in Hid.
Qed.

(** X13.  [Unsubscribe].  An id that is not in the topic gives the
    not-found error and changes neither the topic nor any subscriber.  An id
    that is there is removed (the other ids stay, the count goes down by
    one) and its subscriber is closed (the other subscribers stay as they
    were); unsubscribing the same id again gives the not-found error. *)
Theorem Unsubscribe_spec (t : Topic) (h : gmap nat Subscriber) (id : string) :
  (subscribers t !! id = None -> Unsubscribe t h id = (t, h, Some ErrSubscriberNotFound)) /\
  (forall p sub, subscribers t !! id = Some p -> h !! p = Some sub ->
     exists t' h',
       Unsubscribe t h id = (t', h', None) /\
       subscribers t' = delete id (subscribers t) /\
       GetSubscriberCount t' = GetSubscriberCount t - 1 /\
       h' !! p = Some (Close sub) /\
       (forall p', p' <> p -> h' !! p' = h !! p') /\
       Unsubscribe t' h' id = (t', h', Some ErrSubscriberNotFound)).
Proof.
  split.
  - intros Hnone. unfold Unsubscribe. by rewrite Hnone.
  - intros p sub Hid Hp. unfold Unsubscribe at 1. rewrite Hid, Hp.
    eexists _, _. split; [reflexivity|]. cbn.
    split; [done|]. split; [|split; [|split]].
    + unfold GetSubscriberCount. cbn.
      rewrite map_size_delete_Some by eauto.
      pose proof (size_pos_of_lookup _ _ _ Hid). lia.
    + by rewrite lookup_insert_eq.
    + intros p' Hne. by rewrite lookup_insert_ne.
    + unfold Unsubscribe. cbn. by rewrite lookup_delete_eq.
Qed.

(** X14.  [Subscribe] of a subscriber of the topic's tenant returns [nil],
    files the subscriber under its id (replacing whoever held the id, without
    closing it), leaves the other ids and the cache alone and counts one more
    total subscriber; the number of active subscribers grows by one exactly
    when the id was not there.  Followed by [Unsubscribe] of a fresh id, the
    membership is what it was before and the subscriber is closed. *)
Theorem Subscribe_registers (t : Topic) (h : gmap nat Subscriber) (p : nat) (sub : Subscriber) :
  tenantID t = Sub.TenantID sub ->
  exists t',
    Subscribe t p sub = (t', None, [GoSendRecentMessages p; GoSendLoop p]) /\
    subscribers t' !! ID sub = Some p /\
    (forall id, id <> ID sub -> subscribers t' !! id = subscribers t !! id) /\
    recentCache t' = recentCache t /\
    totalSubscribers t' = totalSubscribers t + 1 /\
    GetSubscriberCount t' =
      match subscribers t !! ID sub with
      | Some _ => GetSubscriberCount t
      | None => GetSubscriberCount t + 1
      end /\
    (subscribers t !! ID sub = None -> h !! p = Some sub ->
       exists t'' h', Unsubscribe t' h (ID sub) = (t'', h', None) /\
         subscribers t'' = subscribers t /\ h' !! p = Some (Close sub)).
Proof.
  intros Hten. unfold Subscribe.
  rewrite bool_decide_eq_false_2 by (intros Hne; by apply Hne).
  eexists. split; [reflexivity|]. cbn.
  split; [by rewrite lookup_insert_eq|].
  split; [intros id Hne; by rewrite lookup_insert_ne|].
  split; [done|]. split; [done|]. split.
  - unfold GetSubscriberCount. cbn. rewrite map_size_insert.
    destruct (subscribers t !! ID sub); cbn; [done|lia].
  - intros Hfresh Hp. unfold Unsubscribe. cbn. rewrite lookup_insert_eq, Hp.
    eexists _, _. split; [reflexivity|]. cbn.
    split; [by apply delete_insert_id|by rewrite lookup_insert_eq].
Qed.

Lemma Subscribe_registers_witness :
  exists t', Subscribe (mkTopic "t" "a" ∅ (RecentCache.mkCache [zeroMessage] 1 0 0) 0 0 0) 7%nat
               (mkSubscriber "s1" "a" "t" [] 4 DROP_OLDEST 0 0 0 0 false [])
             = (t', None, [GoSendRecentMessages 7%nat; GoSendLoop 7%nat]) /\
             subscribers t' !! "s1"%string = Some 7%nat.
Proof.
  destruct (Subscribe_registers (mkTopic "t" "a" ∅ (RecentCache.mkCache [zeroMessage] 1 0 0) 0 0 0)
              ∅ 7%nat (mkSubscriber "s1" "a" "t" [] 4 DROP_OLDEST 0 0 0 0 false []))
    as (t' & Hsub & Hlook & _); [reflexivity|].
  exists t'. split; [exact Hsub|exact Hlook].
Defined.

Lemma elem_of_snapshot (t : Topic) (p : nat) :
  p ∈ getSubscribersSnapshot t <-> exists id, subscribers t !! id = Some p.
Proof.
  unfold getSubscribersSnapshot. rewrite list_elem_of_fmap. split.
  - intros ([id p'] & -> & Hin). exists id. by apply elem_of_map_to_list.
  - intros [id Hid]. exists (id, p). split; [done|]. by apply elem_of_map_to_list.
Qed.

(** A send to an open subscriber always returns. *)
Lemma SendMessages_open (s : Subscriber) (msg : Message) :
  closed s = false -> exists s' e, SendMessages s msg = Some (s', e).
Proof.
  intros Hc. unfold SendMessages, try_send. cbn. rewrite Hc.
  destruct (_ <? capacity s); [eauto|].
  unfold handleBackPressure. cbn. destruct (dropStrategy s); eauto.
  - unfold try_recv, try_send. cbn. rewrite Hc.
    destruct (messageChan s) as [|m q]; cbn; rewrite ?Hc;
      destruct (_ <? capacity s); eauto.
  - destruct (droppedCount s >? 100); eauto.
Qed.

(** A closed subscriber anywhere in the snapshot makes the fan-out panic. *)
Lemma fan_out_closed (msg : Message) (p : nat) (sub : Subscriber) (snapshot : list nat) :
  forall h : gmap nat Subscriber,
    p ∈ snapshot -> h !! p = Some sub -> closed sub = true ->
    fan_out snapshot msg h = None.
Proof.
  induction snapshot as [|q rest IH]; intros h Hin Hp Hc; [by apply elem_of_nil in Hin|].
  cbn [fan_out]. destruct (decide (q = p)) as [->|Hne].
  - rewrite Hp. unfold SendMessages, try_send. cbn. by rewrite Hc.
  - apply elem_of_cons in Hin as [->|Hin]; [done|].
    destruct (h !! q) as [sq|]; [|done].
    destruct (SendMessages sq msg) as [[sq' e]|]; [|done].
    apply IH; [done| |done]. by rewrite lookup_insert_ne.
Qed.

(** X15.  The send-on-closed hazard.  [Publish] on a topic that still holds
    a closed subscriber (closed by a failed write or ping, or by [ShutDown],
    and not yet unsubscribed) panics, whatever the other subscribers are. *)
Theorem Publish_panics_on_closed_subscriber (t : Topic) (h : gmap nat Subscriber)
    (msg : Message) (id : string) (p : nat) (sub : Subscriber) :
  subscribers t !! id = Some p -> h !! p = Some sub -> closed sub = true ->
  Publish t h msg = None.
Proof.
  intros Hid Hp Hc. unfold Publish.
  destruct (RecentCache.Add (recentCache t) msg) as [c|]; [|done].
  rewrite (fan_out_closed msg p sub _ h); try done.
  apply elem_of_snapshot. cbn. by exists id.
Qed.

Lemma Publish_panics_on_closed_subscriber_witness :
  Publish (mkTopic "t" "a" {[ "s1"%string := 7%nat ]} (RecentCache.mkCache [zeroMessage] 1 0 0) 0 1 0)
    {[ 7%nat := mkSubscriber "s1" "a" "t" [] 4 DROP_OLDEST 0 0 0 0 true [] ]}
    (Msg.mkMessage "1" "t" "a" "{}" 1) = None.
Proof.
  apply (Publish_panics_on_closed_subscriber _ _ _ "s1"%string 7%nat
           (mkSubscriber "s1" "a" "t" [] 4 DROP_OLDEST 0 0 0 0 true [])); reflexivity.
Defined.

Lemma fan_out_open (msg : Message) (snapshot : list nat) : forall h : gmap nat Subscriber,
  NoDup snapshot ->
  (forall p, p ∈ snapshot -> exists sub, h !! p = Some sub /\ closed sub = false) ->
  exists h', fan_out snapshot msg h = Some h' /\
    (forall p, p ∉ snapshot -> h' !! p = h !! p) /\
    (forall p sub, p ∈ snapshot -> h !! p = Some sub ->
       exists sub' e, SendMessages sub msg = Some (sub', e) /\ h' !! p = Some sub').
Proof.
  induction snapshot as [|q rest IH]; intros h Hnd Hopen; cbn [fan_out].
  - exists h. split; [done|]. split; [done|]. intros p sub Hin. by apply elem_of_nil in Hin.
  - apply NoDup_cons in Hnd as [Hq Hnd].
    destruct (Hopen q) as (sq & Hsq & Hc); [by left|]. rewrite Hsq.
    destruct (SendMessages_open sq msg Hc) as (sq' & e & Hsend). rewrite Hsend.
    destruct (IH (<[q := sq']> h) Hnd) as (h' & Hfan & Hout & Hin).
    { intros p Hp. destruct (Hopen p) as (sub & Hsub & Hcs); [by right|].
      exists sub. split; [|done]. rewrite lookup_insert_ne; [done|]. by intros ->. }
    exists h'. split; [done|]. split.
    + intros p Hp. apply not_elem_of_cons in Hp as [Hne Hp].
      rewrite (Hout p Hp). by rewrite lookup_insert_ne.
    + intros p sub Hp Hsub. apply elem_of_cons in Hp as [->|Hp].
      * rewrite Hsq in Hsub. injection Hsub as <-. exists sq', e. split; [done|].
        rewrite (Hout q Hq). by rewrite lookup_insert_eq.
      * apply (Hin p sub Hp). rewrite lookup_insert_ne; [done|]. by intros ->.
Qed.

(** X16.  The fan-out.  When the cache takes the message, the subscribers of
    the topic are distinct and all open, [Publish] returns; the topic counts
    one more published message and keeps its subscribers, every subscriber of
    the topic has had exactly one [SendMessages] of the message applied to
    the state it had before, and every other subscriber of the store is
    untouched. *)
Theorem Publish_fans_out (t : Topic) (h : gmap nat Subscriber) (msg : Message)
    (c : RecentCache.RecentMessageCache) :
  RecentCache.Add (recentCache t) msg = Some c ->
  NoDup (getSubscribersSnapshot t) ->
  (forall id p, subscribers t !! id = Some p ->
     exists sub, h !! p = Some sub /\ closed sub = false) ->
  exists h',
    Publish t h msg = Some (mkTopic (name t) (tenantID t) (subscribers t) c
                              (messagesPublished t + 1) (totalSubscribers t) (createdAt t), h') /\
    (forall p, (forall id, subscribers t !! id <> Some p) -> h' !! p = h !! p) /\
    (forall id p sub, subscribers t !! id = Some p -> h !! p = Some sub ->
       exists sub' e, SendMessages sub msg = Some (sub', e) /\ h' !! p = Some sub').
Proof.
  intros Hadd Hnd Hopen. unfold Publish. rewrite Hadd.
  destruct (fan_out_open msg (getSubscribersSnapshot t) h Hnd) as (h' & Hfan & Hout & Hin).
  { intros p Hp. apply elem_of_snapshot in Hp as [id Hid]. by eapply Hopen. }
  exists h'. unfold getSubscribersSnapshot in *. cbn. rewrite Hfan.
  split; [done|]. split.
  - intros p Hno. apply Hout. intros Hp.
    apply (elem_of_snapshot t) in Hp as [id Hid]. by apply (Hno id).
  - intros id p sub Hid Hp. apply Hin; [|done].
    apply (elem_of_snapshot t). by exists id.
Qed.

Lemma Publish_fans_out_witness :
  exists h', Publish
      (mkTopic "t" "a" {[ "s1"%string := 7%nat ]} (RecentCache.mkCache [zeroMessage] 1 0 0) 0 1 0)
      {[ 7%nat := mkSubscriber "s1" "a" "t" [] 4 DROP_OLDEST 0 0 0 0 false [] ]}
      (Msg.mkMessage "1" "t" "a" "{}" 1)
    = Some (mkTopic "t" "a" {[ "s1"%string := 7%nat ]}
              (RecentCache.mkCache [Msg.mkMessage "1" "t" "a" "{}" 1] 1 0 1) 1 1 0, h').
Proof.
  destruct (Publish_fans_out
              (mkTopic "t" "a" {[ "s1"%string := 7%nat ]} (RecentCache.mkCache [zeroMessage] 1 0 0) 0 1 0)
              {[ 7%nat := mkSubscriber "s1" "a" "t" [] 4 DROP_OLDEST 0 0 0 0 false [] ]}
              (Msg.mkMessage "1" "t" "a" "{}" 1)
              (RecentCache.mkCache [Msg.mkMessage "1" "t" "a" "{}" 1] 1 0 1))
    as (h' & Hpub & _).
  - reflexivity.
  - vm_compute. apply NoDup_cons. split; [apply not_elem_of_nil|apply NoDup_nil_2].
  - intros id p Hid. cbn in Hid.
    apply lookup_singleton_Some in Hid as [_ <-].
    eexists. split; [apply lookup_singleton_eq|reflexivity].
  - exists h'. exact Hpub.
Defined.

End TopicMore.

(** ** TopicManager: registry and subscriber ledger *)

Module ManagerMore.
Import Sub TopicManager.

Lemma NewTopic_100 (name tenantID : string) (now : Z) :
  Topic.NewTopic name tenantID 100 now
    = Some (Topic.mkTopic name tenantID ∅
              (RecentCache.mkCache (replicate 100 zeroMessage) 100 0 0) 0 0 now).
Proof. reflexivity. Qed.

(** X17.  Get-or-create.  [getOrCreateTopic] always returns a topic, and
    that topic is then the one filed under the key; the other keys and the
    buffer manager are untouched.  A topic already there is returned as it is
    and the manager does not change; otherwise the new topic carries the
    given name and tenant, has no subscriber and an empty cache of 100 slots.
    A second call returns the same topic and changes nothing, and [GetTopic]
    finds it. *)
Theorem getOrCreateTopic_spec (tm : TopicManager) (tenant_id topic_name : string) (now : Z) :
  exists tm' topic,
    getOrCreateTopic tm tenant_id topic_name now = Some (tm', topic) /\
    topics tm' !! makeTopicKey tenant_id topic_name = Some topic /\
    (forall k, k <> makeTopicKey tenant_id topic_name -> topics tm' !! k = topics tm !! k) /\
    bufferManager tm' = bufferManager tm /\
    (forall t0, topics tm !! makeTopicKey tenant_id topic_name = Some t0 ->
       tm' = tm /\ topic = t0) /\
    (topics tm !! makeTopicKey tenant_id topic_name = None ->
       topic = Topic.mkTopic topic_name tenant_id ∅
                 (RecentCache.mkCache (replicate 100 zeroMessage) 100 0 0) 0 0 now /\
       ManagerOps.GetTopicCount tm' = ManagerOps.GetTopicCount tm + 1) /\
    (forall now', getOrCreateTopic tm' tenant_id topic_name now' = Some (tm', topic)) /\
    ManagerOps.GetTopic tm' tenant_id topic_name = inl topic.
Proof.
  unfold getOrCreateTopic, ManagerOps.GetTopic.
  destruct (topics tm !! makeTopicKey tenant_id topic_name) as [t0|] eqn:Hk.
  - exists tm, t0. rewrite Hk.
    split; [done|]. split; [done|]. split; [done|]. split; [done|].
    split; [by intros t1 [= <-]|]. split; [done|]. done.
  - rewrite NewTopic_100. eexists _, _. split; [reflexivity|]. cbn.
    rewrite lookup_insert_eq.
    split; [done|]. split; [intros k Hne; by rewrite lookup_insert_ne|].
    split; [done|]. split; [done|]. split; [|done].
    intros _. split; [done|].
    unfold ManagerOps.GetTopicCount. cbn. rewrite map_size_insert_None by done. lia.
Qed.

(** X18.  Failed unsubscribes leave everything as it was: for a key without
    topic the manager returns the topic-not-found error, and for a topic
    that does not hold the id the subscriber-not-found error; in both cases
    the manager (its topics and the buffer manager's count) and the store of
    subscribers are unchanged. *)
Theorem Unsubscribe_failures (tm : TopicManager) (h : gmap nat Subscriber)
    (tenant_id topic_name subscriberID : string) :
  (topics tm !! makeTopicKey tenant_id topic_name = None ->
     Unsubscribe tm h tenant_id topic_name subscriberID = (tm, h, Some ErrTopicNotFound)) /\
  (forall topic, topics tm !! makeTopicKey tenant_id topic_name = Some topic ->
     Topic.subscribers topic !! subscriberID = None ->
     Unsubscribe tm h tenant_id topic_name subscriberID
       = (tm, h, Some (ErrTopic Topic.ErrSubscriberNotFound))).
Proof.
  split.
  - intros Hk. unfold Unsubscribe. by rewrite Hk.
  - intros topic Hk Hid. unfold Unsubscribe, Topic.Unsubscribe. rewrite Hk, Hid.
    rewrite insert_id by done. by destruct tm.
Qed.

Lemma wrap32_succ_pred (c : Z) : - 2 ^ 31 <= c < 2 ^ 31 -> wrap32 (wrap32 (c + 1) - 1) = c.
Proof.
  intros Hc. unfold wrap32, wrap. change (32 - 1) with 31.
  replace ((c + 1 + 2 ^ 31) mod 2 ^ 32 - 2 ^ 31 - 1 + 2 ^ 31)
    with ((c + 1 + 2 ^ 31) mod 2 ^ 32 - 1) by lia.
  rewrite Zminus_mod_idemp_l.
  replace (c + 1 + 2 ^ 31 - 1) with (c + 2 ^ 31) by lia.
  rewrite Z.mod_small by lia. lia.
Qed.

(** X19.  The subscriber ledger.  A subscriber of the right tenant, stored
    under its own id, subscribes to a topic that is new or of its tenant:
    [Subscribe] returns [nil] and the buffer manager counts one more.  The
    [Unsubscribe] that follows returns [nil], closes the subscriber and
    brings the count back to what it was (the advertised buffer size is not
    touched by either). *)
Theorem subscribe_unsubscribe_ledger (tm : TopicManager) (h : gmap nat Subscriber)
    (tenant_id topic_name : string) (p : nat) (sub : Subscriber) (now : Z) :
  h !! p = Some sub -> TenantID sub = tenant_id ->
  (forall t0, topics tm !! makeTopicKey tenant_id topic_name = Some t0 ->
     Topic.tenantID t0 = tenant_id) ->
  - 2 ^ 31 <= Buffer.suncriberCount (bufferManager tm) < 2 ^ 31 ->
  exists tm1,
    Subscribe tm h tenant_id topic_name (ID sub) p now
      = Some (tm1, None, [Topic.GoSendRecentMessages p; Topic.GoSendLoop p]) /\
    Buffer.suncriberCount (bufferManager tm1)
      = wrap32 (Buffer.suncriberCount (bufferManager tm) + 1) /\
    exists tm2 h2,
      Unsubscribe tm1 h tenant_id topic_name (ID sub) = (tm2, h2, None) /\
      Buffer.suncriberCount (bufferManager tm2) = Buffer.suncriberCount (bufferManager tm) /\
      Buffer.bufferSize (bufferManager tm2) = Buffer.bufferSize (bufferManager tm) /\
      h2 !! p = Some (Close sub).
Proof.
  intros Hp Hten Htopic Hrange. unfold Subscribe. rewrite Hp.
  rewrite bool_decide_eq_false_2 by (intros Hne; by apply Hne).
  assert (exists tm0 topic, getOrCreateTopic tm tenant_id topic_name now = Some (tm0, topic) /\
            Topic.tenantID topic = tenant_id /\ bufferManager tm0 = bufferManager tm)
    as (tm0 & topic & -> & Htt & Hbm).
  { unfold getOrCreateTopic.
    destruct (topics tm !! makeTopicKey tenant_id topic_name) as [t0|] eqn:Hk.
    - exists tm, t0. split; [done|]. split; [by apply Htopic|done].
    - rewrite NewTopic_100. eexists _, _. by split. }
  unfold Topic.Subscribe.
  rewrite bool_decide_eq_false_2 by (intros Hne; apply Hne; congruence).
  eexists. split; [reflexivity|]. cbn. rewrite Hbm. split; [done|].
  unfold Unsubscribe, Topic.Unsubscribe. cbn.
  rewrite !lookup_insert_eq. cbn. rewrite lookup_insert_eq, Hp.
  eexists _, _. split; [reflexivity|]. cbn.
  split; [by apply wrap32_succ_pred|]. split; [done|]. by rewrite lookup_insert_eq.
Qed.

Lemma subscribe_unsubscribe_ledger_witness :
  exists tm1,
    Subscribe (NewTopicManager (Buffer.NewAdaptiveBufferManager 1048576))
      {[ 7%nat := mkSubscriber "s1" "a" "t" [] 4 DROP_OLDEST 0 0 0 0 false [] ]}
      "a" "t" "s1" 7%nat 0
    = Some (tm1, None, [Topic.GoSendRecentMessages 7%nat; Topic.GoSendLoop 7%nat]) /\
    Buffer.suncriberCount (bufferManager tm1) = 1.
Proof.
  destruct (subscribe_unsubscribe_ledger
              (NewTopicManager (Buffer.NewAdaptiveBufferManager 1048576))
              {[ 7%nat := mkSubscriber "s1" "a" "t" [] 4 DROP_OLDEST 0 0 0 0 false [] ]}
              "a" "t" 7%nat (mkSubscriber "s1" "a" "t" [] 4 DROP_OLDEST 0 0 0 0 false []) 0)
    as (tm1 & Hsub & Hcount & _).
  - apply lookup_singleton_eq.
  - reflexivity.
  - intros t0 Hk. cbn in Hk. by rewrite lookup_empty in Hk.
  - cbn. lia.
  - exists tm1. split; [exact Hsub|]. rewrite Hcount. reflexivity.
Defined.

(** X20.  The count moves before the topic's check.  When the key leads to
    a topic of another tenant, [TopicManager.Subscribe] lets the subscriber
    pass its own tenant check, counts it in the buffer manager and only then
    gets the tenant-mismatch error from [Topic.Subscribe]: the error is
    returned, no topic changes, and the count stays incremented. *)
Theorem rejected_subscribe_is_counted (tm : TopicManager) (h : gmap nat Subscriber)
    (tenant_id topic_name subscriberID : string) (p : nat) (sub : Subscriber)
    (t0 : Topic.Topic) (now : Z) :
  h !! p = Some sub -> TenantID sub = tenant_id ->
  topics tm !! makeTopicKey tenant_id topic_name = Some t0 ->
  Topic.tenantID t0 <> tenant_id ->
  exists tm',
    Subscribe tm h tenant_id topic_name subscriberID p now
      = Some (tm', Some (ErrTopic Topic.ErrTenantMismatch), []) /\
    topics tm' = topics tm /\
    Buffer.suncriberCount (bufferManager tm')
      = wrap32 (Buffer.suncriberCount (bufferManager tm) + 1).
Proof.
  intros Hp Hten Hk Hne. unfold Subscribe. rewrite Hp.
  rewrite bool_decide_eq_false_2 by (intros Hx; by apply Hx).
  unfold getOrCreateTopic. rewrite Hk. unfold Topic.Subscribe.
  rewrite bool_decide_eq_true_2 by congruence.
  eexists. split; [reflexivity|]. cbn. split; [by apply insert_id|done].
Qed.

Lemma rejected_subscribe_is_counted_witness :
  exists tm',
    Subscribe
      (mkTM (Buffer.NewAdaptiveBufferManager 1048576)
         {[ "a:b:c"%string :=
              Topic.mkTopic "b:c" "a" ∅ (RecentCache.mkCache [zeroMessage] 1 0 0) 0 0 0 ]})
      {[ 7%nat := mkSubscriber "s1" "a:b" "c" [] 4 DROP_OLDEST 0 0 0 0 false [] ]}
      "a:b" "c" "s1" 7%nat 0
    = Some (tm', Some (ErrTopic Topic.ErrTenantMismatch), []) /\
    Buffer.suncriberCount (bufferManager tm') = 1.
Proof.
  destruct (rejected_subscribe_is_counted
              (mkTM (Buffer.NewAdaptiveBufferManager 1048576)
                 {[ "a:b:c"%string :=
                      Topic.mkTopic "b:c" "a" ∅ (RecentCache.mkCache [zeroMessage] 1 0 0) 0 0 0 ]})
              {[ 7%nat := mkSubscriber "s1" "a:b" "c" [] 4 DROP_OLDEST 0 0 0 0 false [] ]}
              "a:b" "c" "s1" 7%nat (mkSubscriber "s1" "a:b" "c" [] 4 DROP_OLDEST 0 0 0 0 false [])
              (Topic.mkTopic "b:c" "a" ∅ (RecentCache.mkCache [zeroMessage] 1 0 0) 0 0 0) 0)
    as (tm' & Hsub & _ & Hcount).
  - apply lookup_singleton_eq.
  - reflexivity.
  - apply lookup_singleton_eq.
  - discriminate.
  - exists tm'. split; [exact Hsub|]. rewrite Hcount. reflexivity.
Defined.

(** *** Shutdown and the monitor's counts *)

Lemma close_each_spec (ptrs : list nat) : forall h : gmap nat Subscriber,
  (forall p, p ∈ ptrs -> is_Some (h !! p)) ->
  exists h', ManagerOps.close_each ptrs h = Some h' /\
    forall p, h' !! p = if decide (p ∈ ptrs) then Close <$> h !! p else h !! p.
Proof.
  induction ptrs as [|q rest IH]; intros h Hvalid; cbn [ManagerOps.close_each].
  - exists h. split; [done|]. intros p. case_decide as Hin; [by apply elem_of_nil in Hin|done].
  - destruct (Hvalid q) as [sq Hsq]; [by left|]. rewrite Hsq.
    destruct (IH (<[q := Close sq]> h)) as (h' & Hrun & Hh').
    { intros p Hp. destruct (decide (q = p)) as [->|Hne].
      - rewrite lookup_insert_eq. eauto.
      - rewrite lookup_insert_ne by done. apply Hvalid. by right. }
    exists h'. split; [done|]. intros p. rewrite Hh'.
    destruct (decide (q = p)) as [->|Hne].
    + rewrite lookup_insert_eq, Hsq. cbn.
      rewrite (decide_True (P := p ∈ p :: rest)) by (by left).
      case_decide; [|done]. f_equal. unfold Close.
      destruct (closed sq) eqn:E; cbn; by rewrite ?E.
    + rewrite lookup_insert_ne by done.
      case_decide as Hin.
      * rewrite decide_True; [done|by right].
      * rewrite decide_False; [done|]. intros Hx. apply elem_of_cons in Hx as [->|Hx]; done.
Qed.

Lemma close_topics_concat (ts : list Topic.Topic) : forall h : gmap nat Subscriber,
  (forall p, p ∈ concat (Topic.getSubscribersSnapshot <$> ts) -> is_Some (h !! p)) ->
  exists h', ManagerOps.close_topics ts h = Some h' /\
    forall p, h' !! p = if decide (p ∈ concat (Topic.getSubscribersSnapshot <$> ts))
                        then Close <$> h !! p else h !! p.
Proof.
  induction ts as [|t ts IH]; intros h Hvalid; cbn [ManagerOps.close_topics fmap list_fmap concat].
  - exists h. split; [done|]. intros p. case_decide as Hin; [by apply elem_of_nil in Hin|done].
  - destruct (close_each_spec (Topic.getSubscribersSnapshot t) h) as (h1 & -> & Hh1).
    { intros p Hp. apply Hvalid. cbn. apply elem_of_app. by left. }
    destruct (IH h1) as (h' & Hrun & Hh').
    { intros p Hp. rewrite Hh1.
      destruct (Hvalid p) as [sp Hsp]; [cbn; apply elem_of_app; by right|].
      rewrite Hsp. case_decide; cbn; eauto. }
    exists h'. split; [done|]. intros p. rewrite Hh', Hh1.
    destruct (decide (p ∈ concat (Topic.getSubscribersSnapshot <$> ts))) as [Hin|Hin];
      destruct (decide (p ∈ Topic.getSubscribersSnapshot t)) as [Hin1|Hin1].
    + rewrite decide_True by (apply elem_of_app; by left).
      destruct (h !! p) as [sp|]; [|done]. cbn. f_equal. unfold Close.
      destruct (closed sp) eqn:E; cbn; by rewrite ?E.
    + rewrite decide_True by (apply elem_of_app; by right). done.
    + rewrite decide_True by (apply elem_of_app; by left). done.
    + rewrite decide_False; [done|]. intros Hx. apply elem_of_app in Hx as [Hx|Hx]; done.
Qed.

Lemma elem_of_all_snapshots (tm : TopicManager) (p : nat) :
  p ∈ concat (Topic.getSubscribersSnapshot <$> ManagerOps.GetAllTopics tm) <->
  exists k t id, topics tm !! k = Some t /\ Topic.subscribers t !! id = Some p.
Proof.
  unfold ManagerOps.GetAllTopics. split.
  - intros Hp. apply list_elem_of_In, in_concat in Hp as (l & Hl & Hp).
    apply list_elem_of_In in Hl, Hp.
    apply list_elem_of_fmap in Hl as (t & -> & Ht).
    apply list_elem_of_fmap in Ht as ([k t'] & -> & Hkt).
    apply elem_of_map_to_list in Hkt.
    apply TopicMore.elem_of_snapshot in Hp as [id Hid]. by exists k, t', id.
  - intros (k & t & id & Hk & Hid). apply list_elem_of_In, in_concat.
    exists (Topic.getSubscribersSnapshot t). split; apply list_elem_of_In.
    + apply list_elem_of_fmap. exists t. split; [done|].
      apply list_elem_of_fmap. exists (k, t). split; [done|]. by apply elem_of_map_to_list.
    + apply TopicMore.elem_of_snapshot. by exists id.
Qed.

(** X21.  [ShutDown].  When every subscriber a topic holds is in the store,
    the first [ShutDown] returns and afterwards every subscriber of every
    topic is closed, while every other subscriber is as it was; a second
    [ShutDown] changes nothing.  The topics keep their (closed) subscribers,
    so a [Publish] on any topic that has a subscriber then panics. *)
Theorem ShutDown_closes_all (tm : TopicManager) (h : gmap nat Subscriber) :
  (forall k t id p, topics tm !! k = Some t -> Topic.subscribers t !! id = Some p ->
     is_Some (h !! p)) ->
  exists h',
    ManagerOps.ShutDown false tm h = Some (true, h') /\
    (forall k t id p, topics tm !! k = Some t -> Topic.subscribers t !! id = Some p ->
       exists sub, h !! p = Some sub /\ h' !! p = Some (Close sub)) /\
    (forall p, (forall k t id, topics tm !! k = Some t -> Topic.subscribers t !! id <> Some p) ->
       h' !! p = h !! p) /\
    ManagerOps.ShutDown true tm h' = Some (true, h') /\
    (forall k t id p msg, topics tm !! k = Some t -> Topic.subscribers t !! id = Some p ->
       Topic.Publish t h' msg = None).
Proof.
  intros Hvalid.
  destruct (close_topics_concat (ManagerOps.GetAllTopics tm) h) as (h' & Hrun & Hh').
  { intros p Hp. apply elem_of_all_snapshots in Hp as (k & t & id & Hk & Hid).
    by eapply Hvalid. }
  assert (forall k t id p, topics tm !! k = Some t -> Topic.subscribers t !! id = Some p ->
            exists sub, h !! p = Some sub /\ h' !! p = Some (Close sub)) as Hclosed.
  { intros k t id p Hk Hid. destruct (Hvalid k t id p Hk Hid) as [sub Hsub].
    exists sub. split; [done|]. rewrite Hh', Hsub.
    rewrite decide_True; [done|]. apply elem_of_all_snapshots. by exists k, t, id. }
  exists h'. unfold ManagerOps.ShutDown. rewrite Hrun.
  split; [done|]. split; [exact Hclosed|]. split; [|split; [done|]].
  - intros p Hno. rewrite Hh'. rewrite decide_False; [done|].
    intros Hp. apply elem_of_all_snapshots in Hp as (k & t & id & Hk & Hid).
    by apply (Hno k t id).
  - intros k t id p msg Hk Hid.
    destruct (Hclosed k t id p Hk Hid) as (sub & _ & Hp').
    unfold Topic.Publish.
    destruct (RecentCache.Add (Topic.recentCache t) msg) as [c|]; [|done].
    rewrite (TopicMore.fan_out_closed msg p (Close sub) _ h'); try done.
    + apply TopicMore.elem_of_snapshot. cbn. by exists id.
    + unfold Close. destruct (closed sub) eqn:E; cbn; by rewrite ?E.
Qed.

Lemma ShutDown_closes_all_witness :
  exists h',
    ManagerOps.ShutDown false
      (mkTM (Buffer.NewAdaptiveBufferManager 1048576)
         {[ "a:t"%string :=
              Topic.mkTopic "t" "a" {[ "s1"%string := 7%nat ]}
                (RecentCache.mkCache [zeroMessage] 1 0 0) 0 1 0 ]})
      {[ 7%nat := mkSubscriber "s1" "a" "t" [] 4 DROP_OLDEST 0 0 0 0 false [] ]}
    = Some (true, h').
Proof.
  destruct (ShutDown_closes_all
      (mkTM (Buffer.NewAdaptiveBufferManager 1048576)
         {[ "a:t"%string :=
              Topic.mkTopic "t" "a" {[ "s1"%string := 7%nat ]}
                (RecentCache.mkCache [zeroMessage] 1 0 0) 0 1 0 ]})
      {[ 7%nat := mkSubscriber "s1" "a" "t" [] 4 DROP_OLDEST 0 0 0 0 false [] ]})
    as (h' & Hrun & _).
  - intros k t id p Hk Hid. cbn in Hk.
    apply lookup_singleton_Some in Hk as [_ <-]. cbn in Hid.
    apply lookup_singleton_Some in Hid as [_ <-].
    rewrite lookup_singleton_eq. eauto.
  - exists h'. exact Hrun.
Defined.

End ManagerMore.

(** ** AddaptiveBufferManager: bounds and fairness *)

Module BufferMore.
Import Buffer BufferRun.

Lemma recalculate_bounds (adm : AddaptiveBufferManager) (alloc : Z) :
  MinBifferSize <= bufferSize adm <= MaxBufferSize ->
  MinBifferSize <= bufferSize (recalculate adm alloc) <= MaxBufferSize.
Proof.
  intros Hb. unfold recalculate, MinBifferSize, MaxBufferSize in *.
  destruct (suncriberCount adm =? 0); [done|]. cbn.
  set (b := wrap32 _).
  destruct (b <? 100) eqn:E1.
  - destruct (100 >? 1000) eqn:E2; lia.
  - destruct (b >? 1000) eqn:E2; lia.
Qed.

(** X22.  Advertised capacity.  Whatever the memory limit, the heap usage
    read at each tick and the order of ticks, additions and removals (also
    when the arithmetic wraps), the buffer size a manager hands out is always
    between 100 and 1000; it starts at 1000. *)
Theorem buffer_size_always_bounded (maxMemort : Z) (ops : list BufferOp) :
  GetBufferSize (NewAdaptiveBufferManager maxMemort) = 1000 /\
  100 <= GetBufferSize (apply_ops (NewAdaptiveBufferManager maxMemort) ops) <= 1000.
Proof.
  split; [done|]. unfold apply_ops, GetBufferSize.
  assert (forall adm, MinBifferSize <= bufferSize adm <= MaxBufferSize ->
            MinBifferSize <= bufferSize (foldl apply_op adm ops) <= MaxBufferSize) as Hinv.
  { induction ops as [|op ops IH]; intros adm Hb; cbn [foldl]; [done|].
    apply IH. destruct op; cbn; [by apply recalculate_bounds|done|done]. }
  apply (Hinv (NewAdaptiveBufferManager maxMemort)).
  unfold NewAdaptiveBufferManager, MinBifferSize, MaxBufferSize. cbn. lia.
Qed.

(** The stored size in closed form, while no conversion wraps. *)
Lemma recalculate_value (M c alloc b0 : Z) (st : bool) :
  0 < c -> min_int64 <= M <= max_int64 -> 0 <= alloc <= max_int64 ->
  min_int64 <= M - alloc -> Z.max 0 (M - alloc) / c / 1024 < 2 ^ 31 ->
  bufferSize (recalculate (mkManager M c b0 st) alloc)
    = clamp (Z.max 0 (M - alloc) / c / 1024) 100 1000.
Proof.
  intros Hc HM Ha Hsub Hfit. unfold recalculate, min_int64, max_int64 in *. cbn.
  destruct (c =? 0) eqn:E0; [lia|]. cbn.
  unfold wrap64. rewrite (BufferFacts.wrap_small 64 alloc) by lia.
  rewrite (BufferFacts.wrap_small 64 (M - alloc)) by lia.
  replace (if M - alloc <? 0 then 0 else M - alloc) with (Z.max 0 (M - alloc))
    by (destruct (M - alloc <? 0) eqn:E; lia).
  set (a := Z.max 0 (M - alloc)) in *.
  assert (0 <= a <= 2 ^ 63 - 1) as Hrange by lia.
  rewrite (Z.quot_div_nonneg a c) by lia.
  assert (0 <= a / c <= a) as Hq.
  { split; [apply Z.div_pos; lia|]. apply Z.div_le_upper_bound; nia. }
  rewrite (BufferFacts.wrap_small 64 (a / c)) by lia.
  unfold AvgMessSize. rewrite (Z.quot_div_nonneg (a / c) 1024) by lia.
  assert (0 <= a / c / 1024) by (apply Z.div_pos; lia).
  unfold wrap32. rewrite (BufferFacts.wrap_small 32) by lia.
  unfold clamp, MinBifferSize, MaxBufferSize.
  set (b := a / c / 1024) in *.
  destruct (b <? 100) eqn:E1.
  - destruct (100 >? 1000) eqn:E2; lia.
  - destruct (b >? 1000) eqn:E2; lia.
Qed.

(** X23.  Fair shares shrink.  For the same memory limit and the same heap
    usage, a recalculation with more subscribers never stores a larger
    buffer size than one with fewer; and once the heap usage has reached the
    limit every recalculation stores the minimum, 100. *)
Theorem more_subscribers_smaller_buffers (M c1 c2 alloc b1 b2 : Z) (st1 st2 : bool) :
  0 < c1 <= c2 -> c2 < 2 ^ 31 ->
  0 <= M < 2 ^ 41 -> 0 <= alloc <= max_int64 ->
  bufferSize (recalculate (mkManager M c2 b2 st2) alloc)
    <= bufferSize (recalculate (mkManager M c1 b1 st1) alloc) /\
  (M <= alloc -> bufferSize (recalculate (mkManager M c1 b1 st1) alloc) = 100).
Proof.
  intros Hc Hc2 HM Ha. unfold max_int64 in *.
  set (a := Z.max 0 (M - alloc)).
  assert (0 <= a < 2 ^ 41) as Harange by (subst a; lia).
  assert (forall c, 0 < c -> 0 <= a / c / 1024 < 2 ^ 31) as Hfit.
  { intros c Hpos. split; [apply Z.div_pos; [apply Z.div_pos|]; lia|].
    apply Z.div_lt_upper_bound; [lia|].
    apply Z.le_lt_trans with a; [|lia]. apply Z.div_le_upper_bound; nia. }
  rewrite !recalculate_value; unfold min_int64, max_int64; try lia;
    try (apply Hfit; lia).
  fold a. split.
  - assert (a / c2 / 1024 <= a / c1 / 1024) as Hle.
    { apply Z.div_le_mono; [lia|]. apply Z.div_le_compat_l; lia. }
    unfold clamp. lia.
  - intros Hfull. assert (a = 0) as -> by (subst a; lia).
    rewrite Z.div_0_l by lia. reflexivity.
Qed.

Lemma more_subscribers_smaller_buffers_witness :
  bufferSize (recalculate (mkManager (2048 * 1024 * 1024) 100000 1000 false) 0)
    <= bufferSize (recalculate (mkManager (2048 * 1024 * 1024) 10000 1000 false) 0).
Proof.
  refine (proj1 (more_subscribers_smaller_buffers (2048 * 1024 * 1024) 10000 100000 0
                   1000 1000 false false _ _ _ _)); unfold max_int64; lia.
Defined.

End BufferMore.

(** ** AdaptiveThrottler: what a decision leaves behind *)

Module ThrottleMore.
Import Throttle.

(** X24.  The answer is the flag.  Whatever branch [ShouldThrottle] takes,
    the value it returns is the value of [isThrottling] after the call; the
    call never clears a set flag, never drops a pending disarm and never
    changes the configuration or the subscriber counts. *)
Theorem ShouldThrottle_returns_flag (at_ : AdaptiveThrottler) (now numGoroutines alloc : Z) :
  (ShouldThrottle at_ now numGoroutines alloc).2
    = isThrottling (ShouldThrottle at_ now numGoroutines alloc).1 /\
  (isThrottling at_ = true ->
     isThrottling (ShouldThrottle at_ now numGoroutines alloc).1 = true) /\
  (exists more, timers (ShouldThrottle at_ now numGoroutines alloc).1 = timers at_ ++ more) /\
  config (ShouldThrottle at_ now numGoroutines alloc).1 = config at_ /\
  slowSubCount (ShouldThrottle at_ now numGoroutines alloc).1 = slowSubCount at_ /\
  totalSubCount (ShouldThrottle at_ now numGoroutines alloc).1 = totalSubCount at_.
Proof.
  unfold ShouldThrottle.
  destruct (isThrottling at_) eqn:Hflag.
  { cbn. rewrite Hflag. repeat split; try done. exists []. by rewrite app_nil_r. }
  destruct (_ <? CheckInterval (config at_)).
  { cbn. rewrite Hflag. repeat split; try done. exists []. by rewrite app_nil_r. }
  cbn. destruct (PrimFloat.eqb _ 0%float).
  { cbn. rewrite Hflag. repeat split; try done. exists []. by rewrite app_nil_r. }
  destruct (_ && _); cbn; rewrite ?Hflag; repeat split; try done.
  - by eexists.
  - exists []. by rewrite app_nil_r.
Qed.

(** X25.  Disarming.  After an arm at [t0] with no other disarm pending,
    the sleeping goroutine cannot wake up before [t0 + ThrottleDuration] (no
    schedule has it earlier), and when it wakes up at or after that time the
    flag is cleared, nothing is left pending and [ApplyThrottle] no longer
    delays the publisher; until then [ApplyThrottle] delays by
    [MinPublishInterval]. *)
Theorem disarm_after_duration (at_ : AdaptiveThrottler) (t0 t : Z) :
  timers at_ = [] ->
  ApplyThrottle (StartThrottling at_ t0) = MinPublishInterval (config at_) /\
  (t < t0 + ThrottleDuration (config at_) ->
     timed_run (StartThrottling at_ t0) t0 [(t, Fire 0)] = None) /\
  (t0 <= t -> t0 + ThrottleDuration (config at_) <= t ->
     exists at', timed_run (StartThrottling at_ t0) t0 [(t, Fire 0)] = Some at' /\
       isThrottling at' = false /\ timers at' = [] /\ ApplyThrottle at' = 0).
Proof.
  intros Hnone. split; [done|]. cbn. rewrite Hnone. cbn. split.
  - intros Hearly. destruct (t <? t0); [done|].
    destruct (_ <=? t) eqn:E; [lia|done].
  - intros Ht0 Hlate. destruct (t <? t0) eqn:E0; [lia|].
    destruct (_ <=? t) eqn:E; [|lia]. eexists. repeat split.
Qed.

Lemma disarm_after_duration_witness :
  exists at', timed_run (StartThrottling (NewAdaptiveThrottler DefaultConfig 0) 0) 0
                [(5 * Second, Fire 0)] = Some at' /\
              isThrottling at' = false.
Proof.
  destruct (disarm_after_duration (NewAdaptiveThrottler DefaultConfig 0) 0 (5 * Second) eq_refl)
    as (_ & _ & Hlate).
  destruct Hlate as (at' & Hrun & Hflag & _); [vm_compute; discriminate|vm_compute; discriminate|].
  exists at'. split; [exact Hrun|exact Hflag].
Defined.

End ThrottleMore.

(** ** The adapters *)

Module HandlersMore.
Import Handlers.

Lemma resolve_tenant_nonempty (ctxTenant : option string) : resolve_tenant ctxTenant <> ""%string.
Proof.
  unfold resolve_tenant. destruct ctxTenant as [t|]; [|done].
  case_bool_decide; [done|done].
Qed.

(** X26.  The answers of the publish adapter.  The tenant it resolves is
    never empty.  An error answer is a 405 (exactly when the method is not
    POST) or a 400, never a 500, and then nothing was published: the manager
    and the subscribers are as before.  A success answer carries the id of
    the message built from the request, and that message, stamped with the
    resolved tenant, is what went through [TopicManager.Publish] under that
    same tenant. *)
Theorem Publish_ServeHTTP_answers (tm tm' : TopicManager.TopicManager)
    (h h' : gmap nat Sub.Subscriber) (isPost : bool) (ctxTenant : option string)
    (body : option (string * option string)) (id : string) (now : Z) (resp : PublishResponse) :
  Publish_ServeHTTP tm h isPost ctxTenant body id now = Some (tm', h', resp) ->
  resolve_tenant ctxTenant <> ""%string /\
  match resp with
  | RespondError _ statusCode =>
      tm' = tm /\ h' = h /\ (statusCode = 405 \/ statusCode = 400) /\
      (statusCode = 405 <-> isPost = false)
  | RespondSuccess messageID =>
      isPost = true /\ messageID = id /\
      exists topic d, body = Some (topic, Some d) /\ topic <> ""%string /\
        TopicManager.Publish tm h (resolve_tenant ctxTenant) topic
          (Msg.mkMessage id topic (resolve_tenant ctxTenant) d now) now = Some (tm', h')
  end.
Proof.
  intros Hserve. split; [apply resolve_tenant_nonempty|].
  unfold Publish_ServeHTTP in Hserve.
  destruct isPost; cbn in Hserve.
  2:{ injection Hserve as <- <- <-. repeat split; try done; by left. }
  destruct body as [[topic data]|].
  2:{ injection Hserve as <- <- <-. repeat split; try done; by right. }
  case_bool_decide as Htopic.
  { injection Hserve as <- <- <-. repeat split; try done; by right. }
  destruct data as [d|].
  2:{ injection Hserve as <- <- <-. repeat split; try done; by right. }
  unfold Msg.NewMessage in Hserve.
  destruct (TopicManager.Publish _ _ _ _ _ _) as [[tm1 h1]|] eqn:Hpub; [|done].
  injection Hserve as <- <- <-. cbn.
  split; [done|]. split; [done|]. exists topic, d. by repeat split.
Qed.

Lemma Publish_ServeHTTP_answers_witness :
  resolve_tenant None <> ""%string /\
  (TopicManager.NewTopicManager (Buffer.NewAdaptiveBufferManager 1048576)
     = TopicManager.NewTopicManager (Buffer.NewAdaptiveBufferManager 1048576) /\
   (∅ : gmap nat Sub.Subscriber) = ∅ /\ (400 = 405 \/ 400 = 400) /\ (400 = 405 <-> true = false)).
Proof.
  exact (Publish_ServeHTTP_answers
           (TopicManager.NewTopicManager (Buffer.NewAdaptiveBufferManager 1048576)) _ ∅ _
           true None (Some (""%string, Some "{}"%string)) "msg-1" 1
           (RespondError "Topic Needed" 400) eq_refl).
Defined.

(** X27.  The subscribe adapter.  A request without topic is answered 400
    and changes nothing, whatever the upgrade would give.  A request with a
    topic whose upgrade to a websocket fails is answered 500 and changes
    nothing: no subscriber is made and nothing is subscribed.  An error
    answer is one of these two.  The subscription stands only for a request
    with a topic whose upgrade succeeded; then, when the key leads to no
    topic or to one of the resolved tenant, the new subscriber is stored
    open, with an empty inbox of the capacity the buffer manager advertises
    at that moment, the default strategy and the resolved tenant; the topic
    under the key holds it under its id, the buffer manager counts one more,
    and the catch-up and the delivery loop are started. *)
Theorem Subscribe_ServeHTTP_registers (tm : TopicManager.TopicManager)
    (h : gmap nat Sub.Subscriber) (ctxTenant : option string) (topic subscriberID : string)
    (p : nat) (now : Z) :
  (forall accepted, topic = ""%string ->
     Subscribe_ServeHTTP tm h ctxTenant topic accepted subscriberID p now
       = Some (tm, h, [], SubscribeError "Topic parameter is required" 400)) /\
  (topic <> ""%string ->
     Subscribe_ServeHTTP tm h ctxTenant topic false subscriberID p now
       = Some (tm, h, [], SubscribeError "Failed to upgrade connection" 500)) /\
  (forall accepted tm' h' spawned resp,
     Subscribe_ServeHTTP tm h ctxTenant topic accepted subscriberID p now
       = Some (tm', h', spawned, resp) ->
     match resp with
     | SubscribeError _ statusCode =>
         tm' = tm /\ h' = h /\ spawned = [] /\
         (statusCode = 400 /\ topic = ""%string \/
          statusCode = 500 /\ topic <> ""%string /\ accepted = false)
     | SubscribeClosed | SubscribeServing =>
         topic <> ""%string /\ accepted = true /\
         h' = <[p := Sub.mkSubscriber subscriberID (resolve_tenant ctxTenant) topic []
                       (Buffer.GetBufferSize (TopicManager.bufferManager tm))
                       Sub.DROP_OLDEST 0 0 0 now false []]> h
     end) /\
  (topic <> ""%string ->
   0 <= Buffer.GetBufferSize (TopicManager.bufferManager tm) ->
   (forall t0, TopicManager.topics tm
                 !! TopicManager.makeTopicKey (resolve_tenant ctxTenant) topic = Some t0 ->
      Topic.tenantID t0 = resolve_tenant ctxTenant) ->
   exists tm' t',
     Subscribe_ServeHTTP tm h ctxTenant topic true subscriberID p now
       = Some (tm',
               <[p := Sub.mkSubscriber subscriberID (resolve_tenant ctxTenant) topic []
                        (Buffer.GetBufferSize (TopicManager.bufferManager tm))
                        Sub.DROP_OLDEST 0 0 0 now false []]> h,
               [Topic.GoSendRecentMessages p; Topic.GoSendLoop p], SubscribeServing) /\
     TopicManager.topics tm' !! TopicManager.makeTopicKey (resolve_tenant ctxTenant) topic
       = Some t' /\
     Topic.subscribers t' !! subscriberID = Some p /\
     Topic.tenantID t' = resolve_tenant ctxTenant /\
     Buffer.suncriberCount (TopicManager.bufferManager tm')
       = wrap32 (Buffer.suncriberCount (TopicManager.bufferManager tm) + 1) /\
     Buffer.bufferSize (TopicManager.bufferManager tm')
       = Buffer.bufferSize (TopicManager.bufferManager tm)).
Proof.
  split; [|split; [|split]].
  - intros accepted ->. reflexivity.
  - intros Htopic. unfold Subscribe_ServeHTTP.
    by rewrite bool_decide_eq_false_2 by done.
  - intros accepted tm' h' spawned resp. unfold Subscribe_ServeHTTP.
    case_bool_decide as Htopic.
    { intros [= <- <- <- <-]. repeat split; try done. by left. }
    destruct accepted; cbn [negb].
    2:{ intros [= <- <- <- <-]. repeat split; try done. right. by repeat split. }
    unfold Sub.NewSubscriber.
    destruct (_ <? 0); [done|].
    destruct (TopicManager.Subscribe _ _ _ _ _ _ _) as [[[tm1 [e|]] sp]|]; [| |done].
    + by intros [= <- <- <- <-].
    + by intros [= <- <- <- <-].
  - intros Htopic Hsize Hkey. unfold Subscribe_ServeHTTP.
    rewrite bool_decide_eq_false_2 by done. cbn [negb].
    unfold Sub.NewSubscriber.
    destruct (_ <? 0) eqn:E; [lia|].
    unfold TopicManager.Subscribe. rewrite lookup_insert_eq. cbn.
    rewrite bool_decide_eq_false_2 by (intros Hne; by apply Hne).
    unfold TopicManager.getOrCreateTopic.
    destruct (TopicManager.topics tm !! _) as [t0|] eqn:Hk.
    + unfold Topic.Subscribe. cbn.
      rewrite bool_decide_eq_false_2 by (intros Hne; apply Hne; by apply Hkey).
      eexists _, _. split; [reflexivity|]. cbn. rewrite !lookup_insert_eq.
      split; [done|]. cbn. rewrite lookup_insert_eq. split; [done|].
      split; [by apply Hkey|done].
    + rewrite ManagerMore.NewTopic_100. unfold Topic.Subscribe. cbn.
      rewrite bool_decide_eq_false_2 by (intros Hne; by apply Hne).
      eexists _, _. split; [reflexivity|]. cbn. rewrite !lookup_insert_eq.
      split; [done|]. cbn. rewrite lookup_insert_eq. done.
Qed.

Lemma Subscribe_ServeHTTP_registers_witness :
  (exists tm' t',
    Subscribe_ServeHTTP (TopicManager.NewTopicManager (Buffer.NewAdaptiveBufferManager 1048576))
      ∅ None "t" true "s1" 7%nat 3
    = Some (tm',
            <[7%nat := Sub.mkSubscriber "s1" "default-tenant" "t" [] 1000 Sub.DROP_OLDEST
                         0 0 0 3 false []]> ∅,
            [Topic.GoSendRecentMessages 7%nat; Topic.GoSendLoop 7%nat], SubscribeServing) /\
    TopicManager.topics tm' !! "default-tenant:t"%string = Some t' /\
    Topic.subscribers t' !! "s1"%string = Some 7%nat) /\
  Subscribe_ServeHTTP (TopicManager.NewTopicManager (Buffer.NewAdaptiveBufferManager 1048576))
    ∅ None "t" false "s1" 7%nat 3
  = Some (TopicManager.NewTopicManager (Buffer.NewAdaptiveBufferManager 1048576), ∅, [],
          SubscribeError "Failed to upgrade connection" 500).
Proof.
  destruct (Subscribe_ServeHTTP_registers
              (TopicManager.NewTopicManager (Buffer.NewAdaptiveBufferManager 1048576))
              ∅ None "t" "s1" 7%nat 3) as (_ & Hfail & _ & Hok).
  split.
  - destruct Hok as (tm' & t' & Hrun & Hk & Hid & _).
    + discriminate.
    + vm_compute. discriminate.
    + intros t0 Hk. cbn in Hk. by rewrite lookup_empty in Hk.
    + exists tm', t'. split; [exact Hrun|]. split; [exact Hk|exact Hid].
  - apply Hfail. discriminate.
Defined.

End HandlersMore.

(** ** The monitor's counts *)

Module MonitorMore.
Import ManagerOps.

Lemma count_slow_bounds (ptrs : list nat) (h : gmap nat Sub.Subscriber) :
  forall count n, TopicObs.count_slow ptrs h count = Some n ->
    count <= n <= count + Z.of_nat (length ptrs).
Proof.
  induction ptrs as [|p rest IH]; intros count n; cbn [TopicObs.count_slow length].
  - intros [= <-]. lia.
  - destruct (h !! p) as [sub|]; [|done]. intros Hrest. apply IH in Hrest.
    destruct (Sub.IsSlow sub); lia.
Qed.

Lemma topic_slow_bounds (t : Topic.Topic) (h : gmap nat Sub.Subscriber) (n : Z) :
  TopicObs.GetSlowSubscriberCount t h = Some n -> 0 <= n <= Topic.GetSubscriberCount t.
Proof.
  unfold TopicObs.GetSlowSubscriberCount, Topic.GetSubscriberCount, Topic.getSubscribersSnapshot.
  intros Hn. apply count_slow_bounds in Hn.
  rewrite length_fmap, length_map_to_list in Hn. lia.
Qed.

Lemma sum_subscribers_shift (ts : list Topic.Topic) : forall a,
  sum_subscribers ts a = a + sum_subscribers ts 0.
Proof.
  induction ts as [|t ts IH]; intros a; cbn [sum_subscribers]; [lia|].
  rewrite (IH (a + _)), (IH (0 + _)). lia.
Qed.

Lemma sum_slow_bounds (ts : list Topic.Topic) (h : gmap nat Sub.Subscriber) :
  forall a n, sum_slow ts h a = Some n -> a <= n <= a + sum_subscribers ts 0.
Proof.
  induction ts as [|t ts IH]; intros a n; cbn [sum_slow sum_subscribers].
  - intros [= <-]. lia.
  - destruct (TopicObs.GetSlowSubscriberCount t h) as [k|] eqn:Hk; [|done].
    intros Hrest. apply IH in Hrest. apply topic_slow_bounds in Hk.
    rewrite (sum_subscribers_shift ts (0 + _)). lia.
Qed.

(** X28.  Slow never exceeds total.  The slow count of a topic is between 0
    and its subscriber count, the slow count over all topics is between 0
    and the total subscriber count, and these two numbers are what one tick
    of the monitor loop pushes into the throttler. *)
Theorem slow_at_most_total (tm : TopicManager.TopicManager) (h : gmap nat Sub.Subscriber)
    (slow : Z) (throttler : Throttle.AdaptiveThrottler) :
  ManagerOps.GetSlowSubscriberCount tm h = Some slow ->
  0 <= slow <= GetTotalSubscriberCount tm /\
  (forall k t n, TopicManager.topics tm !! k = Some t ->
     TopicObs.GetSlowSubscriberCount t h = Some n -> 0 <= n <= Topic.GetSubscriberCount t) /\
  monitor_tick tm h throttler
    = Some (Throttle.UpdateSubscriber throttler slow (GetTotalSubscriberCount tm)).
Proof.
  intros Hslow. split; [|split].
  - unfold ManagerOps.GetSlowSubscriberCount, GetTotalSubscriberCount in *.
    apply sum_slow_bounds in Hslow. lia.
  - intros k t n _ Hn. exact (topic_slow_bounds t h n Hn).
  - unfold monitor_tick. by rewrite Hslow.
Qed.

Lemma slow_at_most_total_witness :
  0 <= 1 <= GetTotalSubscriberCount
    (TopicManager.mkTM (Buffer.NewAdaptiveBufferManager 1048576)
       {[ "a:t"%string :=
            Topic.mkTopic "t" "a" {[ "s1"%string := 7%nat ]}
              (RecentCache.mkCache [zeroMessage] 1 0 0) 0 1 0 ]}).
Proof.
  refine (proj1 (slow_at_most_total
    (TopicManager.mkTM (Buffer.NewAdaptiveBufferManager 1048576)
       {[ "a:t"%string :=
            Topic.mkTopic "t" "a" {[ "s1"%string := 7%nat ]}
              (RecentCache.mkCache [zeroMessage] 1 0 0) 0 1 0 ]})
    {[ 7%nat := Sub.mkSubscriber "s1" "a" "t" [] 4 Sub.DROP_OLDEST 3 5 2 0 false [] ]}
    1 (Throttle.NewAdaptiveThrottler Throttle.DefaultConfig 0) _)).
  vm_compute. reflexivity.
Defined.

End MonitorMore.

(** ** Publish, then subscribe *)

Module ScenarioMore.
Import Sub TopicManager Scenario.

Lemma Publish_quiet (tm : TopicManager) (h : gmap nat Subscriber)
    (tenant_id topic_name : string) (msg : Message) (now : Z) (hist : list Message) :
  match topics tm !! makeTopicKey tenant_id topic_name with
  | Some t => (Topic.tenantID t = tenant_id /\ Topic.subscribers t = ∅ /\ Topic.messagesPublished t = Z.of_nat (length hist) /\ RecentCacheFacts.ring (Topic.recentCache t) 100 hist)
  | None => hist = []
  end ->
  exists tm' t',
    Publish tm h tenant_id topic_name msg now = Some (tm', h) /\
    topics tm' !! makeTopicKey tenant_id topic_name = Some t' /\
    (Topic.tenantID t' = tenant_id /\ Topic.subscribers t' = ∅ /\ Topic.messagesPublished t' = Z.of_nat (length (hist ++ [msg])) /\ RecentCacheFacts.ring (Topic.recentCache t') 100 (hist ++ [msg])).
Proof.
  intros Hk. unfold Publish, getOrCreateTopic.
  assert (exists tm0 t0,
            match topics tm !! makeTopicKey tenant_id topic_name with
            | Some topic => Some (tm, topic)
            | None =>
                match Topic.NewTopic topic_name tenant_id 100 now with
                | Some topic =>
                    Some (mkTM (bufferManager tm)
                            (<[makeTopicKey tenant_id topic_name := topic]> (topics tm)), topic)
                | None => None
                end
            end = Some (tm0, t0) /\ (Topic.tenantID t0 = tenant_id /\ Topic.subscribers t0 = ∅ /\ Topic.messagesPublished t0 = Z.of_nat (length hist) /\ RecentCacheFacts.ring (Topic.recentCache t0) 100 hist)) as (tm0 & t0 & -> & Hq).
  { destruct (topics tm !! makeTopicKey tenant_id topic_name) as [t|].
    - by exists tm, t.
    - subst hist. rewrite ManagerMore.NewTopic_100. eexists _, _. split; [reflexivity|].
      cbn. split; [done|]. split; [done|]. split; [done|].
      apply (RecentCacheFacts.ring_new 100); [lia|reflexivity]. }
  destruct Hq as (Hten & Hsubs & Hpub & Hring).
  destruct (RecentCacheFacts.ring_add _ 100 hist msg Hring) as (c' & Hadd & Hring').
  unfold Topic.Publish. rewrite Hadd.
  unfold Topic.getSubscribersSnapshot. cbn. rewrite Hsubs, map_to_list_empty. cbn.
  eexists _, _. split; [reflexivity|]. cbn. rewrite lookup_insert_eq. split; [done|].
  cbn. rewrite length_app. cbn.
  split; [done|]. split; [done|]. split; [lia|done].
Qed.

Lemma publish_all_quiet (msgs : list Message) :
  forall (tm : TopicManager) (h : gmap nat Subscriber) (tenant_id topic_name : string)
         (now : Z) (hist : list Message),
    match topics tm !! makeTopicKey tenant_id topic_name with
    | Some t => (Topic.tenantID t = tenant_id /\ Topic.subscribers t = ∅ /\ Topic.messagesPublished t = Z.of_nat (length hist) /\ RecentCacheFacts.ring (Topic.recentCache t) 100 hist)
    | None => hist = []
    end ->
    exists tm',
      publish_all tm h tenant_id topic_name msgs now = Some (tm', h) /\
      match topics tm' !! makeTopicKey tenant_id topic_name with
      | Some t => (Topic.tenantID t = tenant_id /\ Topic.subscribers t = ∅ /\ Topic.messagesPublished t = Z.of_nat (length (hist ++ msgs)) /\ RecentCacheFacts.ring (Topic.recentCache t) 100 (hist ++ msgs))
      | None => hist ++ msgs = []
      end.
Proof.
  induction msgs as [|m msgs IH]; intros tm h tenant_id topic_name now hist Hk;
    cbn [publish_all].
  - exists tm. split; [done|]. by rewrite app_nil_r.
  - destruct (Publish_quiet tm h tenant_id topic_name m now hist Hk) as (tm1 & t1 & -> & Hk1 & Hq1).
    destruct (IH tm1 h tenant_id topic_name now (hist ++ [m])) as (tm' & Hrun & Hk').
    { by rewrite Hk1. }
    exists tm'. split; [done|]. by rewrite <- app_assoc in Hk'.
Qed.

(** X29.  Catch-up after publishes.  On a manager that has no topic under
    the key, the messages [ms] are published one after the other to a topic
    of a tenant: every publish returns and no subscriber is touched.  The
    topic a subscriber then gets from [getOrCreateTopic] is of that tenant,
    has counted [length ms] publications, and its catch-up hands an open
    subscriber with an empty inbox of capacity at least 50 the last 50 of
    [ms] (all of them if there are fewer), in the order they were
    published. *)
Theorem catch_up_after_publishes (tm : TopicManager) (h : gmap nat Subscriber)
    (tenant_id topic_name : string) (ms : list Message) (now : Z) (sub : Subscriber) :
  topics tm !! makeTopicKey tenant_id topic_name = None ->
  closed sub = false -> messageChan sub = [] -> 50 <= capacity sub ->
  exists tm1 tm2 t,
    publish_all tm h tenant_id topic_name ms now = Some (tm1, h) /\
    getOrCreateTopic tm1 tenant_id topic_name now = Some (tm2, t) /\
    Topic.tenantID t = tenant_id /\
    Topic.messagesPublished t = Z.of_nat (length ms) /\
    Topic.sendRecentMessages t sub =
      Some (mkSubscriber (ID sub) (TenantID sub) (Sub.Topic sub) (drop (length ms - 50) ms)
              (capacity sub) (dropStrategy sub) (droppedCount sub)
              (messagesRecieved sub + Z.min 50 (Z.of_nat (length ms))) (messagesSent sub)
              (lastActive sub) (closed sub) (written sub)).
Proof.
  intros Hnone Hopen Hempty Hcap.
  destruct (publish_all_quiet ms tm h tenant_id topic_name now []) as (tm1 & Hrun & Hk1).
  { by rewrite Hnone. }
  cbn [app] in Hk1.
  assert (exists tm2 t, getOrCreateTopic tm1 tenant_id topic_name now = Some (tm2, t) /\
            (Topic.tenantID t = tenant_id /\ Topic.subscribers t = ∅ /\ Topic.messagesPublished t = Z.of_nat (length ms) /\ RecentCacheFacts.ring (Topic.recentCache t) 100 ms)) as (tm2 & t & Hget & Hq).
  { unfold getOrCreateTopic.
    destruct (topics tm1 !! makeTopicKey tenant_id topic_name) as [t|].
    - by exists tm1, t.
    - subst ms. rewrite ManagerMore.NewTopic_100. eexists _, _. split; [reflexivity|].
      cbn. split; [done|]. split; [done|]. split; [done|].
      apply (RecentCacheFacts.ring_new 100); [lia|reflexivity]. }
  exists tm1, tm2, t. destruct Hq as (Hten & _ & Hpub & Hring).
  split; [done|]. split; [done|]. split; [done|]. split; [done|].
  unfold Topic.sendRecentMessages.
  rewrite (RecentCacheFacts.ring_GetLast _ 100 ms 50 Hring) by lia.
  pose proof Hring as (_ & _ & _ & Hcnt & _).
  replace (length ms - Z.to_nat (Z.min 50 (RecentCache.count (Topic.recentCache t))))%nat
    with (length ms - 50)%nat by lia.
  rewrite TopicFacts.send_recent_loop_room; [|done|].
  - rewrite Hempty, length_drop. cbn. do 2 f_equal. lia.
  - rewrite Hempty, length_drop. cbn. lia.
Qed.

Lemma catch_up_after_publishes_witness :
  exists tm1 tm2 t,
    publish_all (NewTopicManager (Buffer.NewAdaptiveBufferManager 1048576)) ∅ "a" "t"
      [Msg.mkMessage "1" "t" "a" "{}" 1; Msg.mkMessage "2" "t" "a" "{}" 2] 0 = Some (tm1, ∅) /\
    getOrCreateTopic tm1 "a" "t" 0 = Some (tm2, t) /\
    Topic.sendRecentMessages t (mkSubscriber "s1" "a" "t" [] 100 DROP_OLDEST 0 0 0 0 false [])
      = Some (mkSubscriber "s1" "a" "t"
                [Msg.mkMessage "1" "t" "a" "{}" 1; Msg.mkMessage "2" "t" "a" "{}" 2]
                100 DROP_OLDEST 0 2 0 0 false []).
Proof.
  destruct (catch_up_after_publishes
              (NewTopicManager (Buffer.NewAdaptiveBufferManager 1048576)) ∅ "a" "t"
              [Msg.mkMessage "1" "t" "a" "{}" 1; Msg.mkMessage "2" "t" "a" "{}" 2] 0
              (mkSubscriber "s1" "a" "t" [] 100 DROP_OLDEST 0 0 0 0 false []))
    as (tm1 & tm2 & t & Hrun & Hget & _ & _ & Hcatch).
  - apply lookup_empty.
  - reflexivity.
  - reflexivity.
  - cbn. lia.
  - exists tm1, tm2, t. split; [exact Hrun|]. split; [exact Hget|exact Hcatch].
Defined.

End ScenarioMore.
